(** * The AI route of the front end (frontend/app/api/ai/route.ts)

    A shallow embedding of the route's file-tree formatter, backend
    selection, quota check, prompt assembly and the two stream loops,
    with the properties established about them. *)

From Stdlib Require Import String Ascii List ZArith Lia Bool Permutation Sorted.
From Stdlib Require OrderedTypeEx.
From stdpp Require Import base option strings gmap.
From Equations Require Import Equations.
Import ListNotations.
Local Open Scope string_scope.
Local Open Scope Z_scope.

(** ** JavaScript string and array primitives used by the route *)

Module Js.

(** [s.endsWith(suffix)]. *)
Fixpoint endsWith (s suffix : string) : bool :=
  if String.eqb s suffix then true
  else match s with
       | EmptyString => false
       | String _ s' => endsWith s' suffix
       end.

(** [s.replace("*", "")]: a string pattern replaces its first occurrence
    only. *)
Fixpoint replace_star (s : string) : string :=
  match s with
  | EmptyString => EmptyString
  | String c s' =>
      if Ascii.eqb c "*"%char then s' else String c (replace_star s')
  end.

(** [xs.some(p)]. *)
Definition some {A} (p : A -> bool) (xs : list A) : bool := existsb p xs.

(** [xs.join(sep)] on an array of strings. *)
Definition join (sep : string) (xs : list string) : string :=
  String.concat sep xs.

(** Truthiness of a [string | null] value, as tested by
    [.filter(Boolean)]. *)
Definition Boolean (v : option string) : bool :=
  match v with
  | None => false
  | Some EmptyString => false
  | Some _ => true
  end.

(** [xs.filter(Boolean)] on an array of [string | null]. *)
Fixpoint filter_Boolean (xs : list (option string)) : list string :=
  match xs with
  | [] => []
  | v :: xs' =>
      match v with
      | Some s => if Boolean v then s :: filter_Boolean xs' else filter_Boolean xs'
      | None => filter_Boolean xs'
      end
  end.

(** [[...xs].sort(cmp)].  [Array.prototype.sort] is stable; with a
    consistent comparator its result is the stable sorted arrangement,
    which insertion from the right computes.  [cmp a b > 0] means that
    [a] goes after [b]. *)
Section Sort.
Context {A : Type} (cmp : A -> A -> Z).

Fixpoint insert (x : A) (l : list A) : list A :=
  match l with
  | [] => [x]
  | y :: l' => if 0 <? cmp x y then y :: insert x l' else x :: l
  end.

Fixpoint sort (l : list A) : list A :=
  match l with
  | [] => []
  | x :: l' => insert x (sort l')
  end.
End Sort.

(** A consistent comparator, as [Array.prototype.sort] requires for a
    determined result. *)
Record consistent {A : Type} (cmp : A -> A -> Z) : Prop := {
  cmp_refl : forall a, cmp a a = 0;
  cmp_antisym : forall a b, cmp a b < 0 <-> 0 < cmp b a;
  cmp_trans : forall a b c, cmp a b <= 0 -> cmp b c <= 0 -> cmp a c <= 0
}.

(** [a] may stand before [b]; [a] and [b] compare as equal. *)
Definition cmp_le {A : Type} (cmp : A -> A -> Z) (a b : A) : Prop := cmp a b <= 0.
Definition cmp_eqv {A : Type} (cmp : A -> A -> Z) (a b : A) : bool := cmp a b =? 0.

(** A template literal prints an absent value as [undefined]. *)
Definition interp (v : option string) : string :=
  match v with Some s => s | None => "undefined" end.

(** Truthiness of a [string | undefined] value. *)
Definition truthy (v : option string) : bool :=
  match v with
  | None => false
  | Some EmptyString => false
  | Some _ => true
  end.

(** [a && b] and [a || b] on [string | undefined] values. *)
Definition and (a b : option string) : option string :=
  if truthy a then b else a.

Definition or (a : option string) (b : string) : string :=
  match a with
  | Some s => if truthy a then s else b
  | None => b
  end.

(** The property names every plain object inherits from
    [Object.prototype].  Reading one of them from an object that has no own
    property of that name gives the inherited member, a function (for
    [__proto__], the prototype itself): a truthy value with none of the
    fields this route reads. *)
Definition Object_prototype_names : list string :=
  [ "constructor"; "__defineGetter__"; "__defineSetter__"; "hasOwnProperty";
    "__lookupGetter__"; "__lookupSetter__"; "isPrototypeOf";
    "propertyIsEnumerable"; "toString"; "valueOf"; "__proto__";
    "toLocaleString" ].

Definition inherited (key : string) : bool :=
  existsb (String.eqb key) Object_prototype_names.

End Js.

(** ** File tree (lib/types: TFile | TFolder)

    [children] is [None] when the field is absent or is not an array:
    the tree arrives in the request's JSON body and is not validated. *)

#[local] Set Warnings "-register-all".

Inductive Node : Type :=
| TFile (name : string)
| TFolder (name : string) (children : option (list Node)).

Definition node_name (n : Node) : string :=
  match n with TFile s => s | TFolder s _ => s end.

Definition is_folder (n : Node) : bool :=
  match n with TFile _ => false | TFolder _ _ => true end.

Definition is_file (n : Node) : bool := negb (is_folder n).

Fixpoint node_size (n : Node) : nat :=
  match n with
  | TFile _ => 1%nat
  | TFolder _ None => 1%nat
  | TFolder _ (Some cs) => S (list_sum (List.map node_size cs))
  end.

Definition items_size (items : option (list Node)) : nat :=
  match items with
  | None => 0%nat
  | Some l => S (list_sum (List.map node_size l))
  end.

Definition glyph_branch : string := "├── ".
Definition glyph_pipe : string := "│   ".

Definition nl : string := String (ascii_of_nat 10) EmptyString.

(** [xs.map(f)] where the callback also receives the evidence that its
    argument is an element of [xs]; it is [List.map] (see [map_In_map]). *)
Fixpoint map_In {A B : Type} (l : list A) : (forall x, In x l -> B) -> list B :=
  match l with
  | [] => fun _ => []
  | x :: l' => fun f =>
      f x (or_introl eq_refl) :: map_In l' (fun y H => f y (or_intror H))
  end.

(** ** The context formatter *)

Section Formatter.

(** The ignore lists of components/editor/AIChat/lib/ignored-paths and
    [String.prototype.localeCompare], a number whose sign orders two
    names. *)
Variable ignoredFiles : list string.
Variable ignoredFolders : list string.
Variable localeCompare : string -> string -> Z.

(** The comparator handed to [sort]. *)
Definition compareItems (a b : Node) : Z :=
  if Bool.eqb (is_folder a) (is_folder b)
  then localeCompare (node_name a) (node_name b)
  else if is_folder a then -1 else 1.

Definition sortedItems (items : list Node) : list Node :=
  Js.sort compareItems items.

(** [ignoredFiles.some(pattern => name.endsWith(pattern.replace("*", ""))
    || name === pattern)] *)
Definition file_ignored (name : string) : bool :=
  Js.some (fun pattern =>
             Js.endsWith name (Js.replace_star pattern) || String.eqb name pattern)
          ignoredFiles.

(** [ignoredFolders.some(folder => folder === name)] *)
Definition folder_ignored (name : string) : bool :=
  Js.some (fun folder => String.eqb folder name) ignoredFolders.

Equations? formatFileStructure (items : option (list Node)) (prefix : string)
  : string by wf (items_size items) lt :=
formatFileStructure None prefix := "No files available";
formatFileStructure (Some items) prefix :=
  Js.join nl
    (Js.filter_Boolean
       (map_In (sortedItems items)
          (fun item Hin =>
             match item as i return In i (sortedItems items) -> option string with
             | TFile name => fun _ =>
                 if negb (file_ignored name)
                 then Some (prefix ++ glyph_branch ++ name)
                 else None
             | TFolder name children => fun Hin' =>
                 if negb (folder_ignored name)
                 then
                   let folderContent :=
                     formatFileStructure children (prefix ++ glyph_pipe) in
                   Some (prefix ++ glyph_branch ++ name ++ "/" ++ nl ++ folderContent)
                 else None
             end Hin))).
Proof.
  (* the folder is an element of [items], so its children are smaller *)
  assert (Ins : forall x y l, In y (Js.insert compareItems x l) -> y = x \/ In y l).
  { intros x y l. induction l as [|z l IH]; cbn [Js.insert In];
      [intuition auto|].
    destruct (0 <? compareItems x z); cbn [In]; intuition auto. }
  assert (Srt : forall y l, In y (Js.sort compareItems l) -> In y l).
  { intros y l. induction l as [|x l IH]; cbn [Js.sort In]; [tauto|].
    intros H. apply Ins in H. destruct H as [->|H]; [left; reflexivity | right; auto]. }
  assert (Sz : forall n l, In n l ->
                           (node_size n <= list_sum (List.map node_size l))%nat).
  { intros n l. induction l as [|x l IH]; simpl; [tauto|].
    intros [->|H]; [lia | specialize (IH H); lia]. }
  apply Srt, Sz in Hin'.
  destruct children as [cs|]; cbn [node_size items_size] in *; lia.
Qed.

(** The callback of [sortedItems.map]: the text of one item, or [None]
    where the source returns [null]. *)
Definition render_item (prefix : string) (item : Node) : option string :=
  match item with
  | TFile name =>
      if negb (file_ignored name)
      then Some (prefix ++ glyph_branch ++ name)
      else None
  | TFolder name children =>
      if negb (folder_ignored name)
      then
        let folderContent := formatFileStructure children (prefix ++ glyph_pipe) in
        Some (prefix ++ glyph_branch ++ name ++ "/" ++ nl ++ folderContent)
      else None
  end.

(** The items for which the callback does not return [null]. *)
Definition retained (item : Node) : bool :=
  match item with
  | TFile name => negb (file_ignored name)
  | TFolder name _ => negb (folder_ignored name)
  end.

(** The text of a retained item. *)
Definition render_line (prefix : string) (item : Node) : string :=
  match item with
  | TFile name => prefix ++ glyph_branch ++ name
  | TFolder name children =>
      prefix ++ glyph_branch ++ name ++ "/" ++ nl
        ++ formatFileStructure children (prefix ++ glyph_pipe)
  end.

(** The retained items of one level, in the order they are printed. *)
Definition entries (items : list Node) : list Node :=
  List.filter retained (sortedItems items).

(** Two nodes stand in name order. *)
Definition by_name (a b : Node) : Prop :=
  localeCompare (node_name a) (node_name b) <= 0.

(** An item with the children of a dropped folder forgotten. *)
Definition without_dropped_descendants (item : Node) : Node :=
  match item with
  | TFolder name children =>
      if folder_ignored name then TFolder name None else item
  | TFile _ => item
  end.

End Formatter.

(** The formatter's filter as the specification words it. *)
Module Spec.

(** The pattern without its trailing wildcard marker, when it has one. *)
Fixpoint strip_trailing_wildcard (pattern : string) : string :=
  match pattern with
  | EmptyString => EmptyString
  | String c EmptyString => if Ascii.eqb c "*"%char then EmptyString else pattern
  | String c rest => String c (strip_trailing_wildcard rest)
  end.

(** A name matches an ignore pattern by exact equality, or by suffix match
    after stripping a trailing wildcard marker from the pattern. *)
Definition file_matches (ignoredFiles : list string) (name : string) : bool :=
  existsb (fun pattern =>
             String.eqb name pattern
             || Js.endsWith name (strip_trailing_wildcard pattern))
          ignoredFiles.

(** A name with its letters [A] to [Z] put in lower case. *)
Definition lower_char (c : ascii) : ascii :=
  let n := nat_of_ascii c in
  if (Nat.leb 65 n && Nat.leb n 90)%bool then ascii_of_nat (n + 32) else c.

Fixpoint lower (name : string) : string :=
  match name with
  | EmptyString => EmptyString
  | String c rest => String (lower_char c) (lower rest)
  end.

(** A case-sensitive comparison of names: two names that differ, be it
    only in the case of their letters, never compare as equal. *)
Definition case_sensitive (cmp : string -> string -> Z) : Prop :=
  forall a b, lower a = lower b -> cmp a b = 0 -> a = b.

End Spec.

(** A comparator that orders names by their length, used in examples. *)
Definition length_compare (a b : string) : Z :=
  Z.of_nat (String.length a) - Z.of_nat (String.length b).

(** The comparison of names by their code units, used in examples. *)
Definition code_unit_compare (a b : string) : Z :=
  match String.compare a b with
  | Lt => -1
  | Eq => 0
  | Gt => 1
  end.

(** ** Process configuration and the clients created when the module loads *)

(** [process.env] *)
Abbreviation Env := (gmap string string).

Record BedrockRuntimeClient := {
  region : string;
  accessKeyId : option string;
  secretAccessKey : option string
}.

Record AnthropicClient := { apiKey : option string }.

Record ModuleState := {
  useBedrockClient : bool;
  bedrockClient : option BedrockRuntimeClient;
  anthropicClient : AnthropicClient
}.

(** The top-level statements of the module, run once when it is loaded. *)
Definition init (env : Env) : ModuleState :=
  let useBedrockClient :=
    Js.truthy
      (Js.and (Js.and (Js.and (env !! "AWS_ACCESS_KEY_ID")
                              (env !! "AWS_SECRET_ACCESS_KEY"))
                      (env !! "AWS_REGION"))
              (env !! "AWS_ARN")) in
  {| useBedrockClient := useBedrockClient;
     bedrockClient :=
       if useBedrockClient
       then Some {| region := Js.or (env !! "AWS_REGION") "us-east-1";
                    accessKeyId := env !! "AWS_ACCESS_KEY_ID";
                    secretAccessKey := env !! "AWS_SECRET_ACCESS_KEY" |}
       else None;
     anthropicClient := {| apiKey := env !! "ANTHROPIC_API_KEY" |} |}.

Inductive Backend := RemoteManagedRuntime | DirectProviderAPI.

(** The test [useBedrockClient && bedrockClient] of the handler. *)
Definition selected (m : ModuleState) : Backend :=
  if useBedrockClient m && bool_decide (is_Some (bedrockClient m))
  then RemoteManagedRuntime else DirectProviderAPI.

(** ** Exceptions, results and the handler's effects *)

(** A thrown value: an [Error] with its message, or anything else. *)
Inductive Thrown := ErrorObj (message : string) | NonError.

Inductive Result (A : Type) : Type :=
| Ok (a : A)
| Throw (e : Thrown).
Arguments Ok {A} a.
Arguments Throw {A} e.

(** An async iterable: the chunks it yields, then its end ([None]) or the
    rejection that interrupts it. *)
Record Stream (A : Type) := {
  chunks : list A;
  failure : option Thrown
}.
Arguments chunks {A} s.
Arguments failure {A} s.

(** *** The stream handed to the caller *)

(** A call that [start] makes on the controller of the [ReadableStream]. *)
Inductive ControllerCall :=
| Enqueue (fragment : string)
| Close
| Error (e : Thrown).

Inductive ControllerState := Readable | Closed | Errored (e : Thrown).

(** What [start] has done when it returns: its calls on the controller,
    oldest first, and what it wrote with [console.error].  [calls] is the
    record of the calls made, not the stream's internal queue: on [Error]
    the stream discards the fragments that no reader has taken yet.  The
    loops call [enqueue] only before [close] or [error], so [enqueue] never
    throws here; a reader that cancels the stream is not modelled. *)
Record Controller := {
  calls : list ControllerCall;
  console : list (string * option Thrown)
}.

Definition new_controller : Controller :=
  {| calls := []; console := [] |}.

(** [controller.enqueue(encoder.encode(text))]: a fragment is kept as the
    string that is encoded. *)
Definition enqueue (c : Controller) (text : string) : Controller :=
  {| calls := (calls c ++ [Enqueue text])%list; console := console c |}.

Definition close (c : Controller) : Controller :=
  {| calls := (calls c ++ [Close])%list; console := console c |}.

Definition error (c : Controller) (e : Thrown) : Controller :=
  {| calls := (calls c ++ [Error e])%list; console := console c |}.

Definition console_error (c : Controller) (label : string) (detail : option Thrown)
  : Controller :=
  {| calls := calls c; console := (console c ++ [(label, detail)])%list |}.

(** The fragments handed to [enqueue], in order. *)
Definition enqueued (c : Controller) : list string :=
  flat_map (fun call => match call with Enqueue f => [f] | _ => [] end) (calls c).

(** The state the calls leave the stream in. *)
Definition state (c : Controller) : ControllerState :=
  fold_left (fun st call =>
               match call with
               | Enqueue _ => st
               | Close => Closed
               | Error e => Errored e
               end)
            (calls c) Readable.

(** *** Bedrock response stream *)

(** The [text] field of a delta, seen through what the loop does with it:
    its truthiness, and the string that [TextEncoder.encode] makes of it.
    A string is itself; any other value ([5], [true], an array, ...) is
    given by its truthiness and its rendering ([5] is truthy and renders as
    the digit, the empty array is truthy and renders as the empty string). *)
Inductive TextField :=
| text_undefined
| text_string (s : string)
| text_other (truthy : bool) (rendering : string).

Definition text_truthy (t : TextField) : bool :=
  match t with
  | text_undefined => false
  | text_string EmptyString => false
  | text_string _ => true
  | text_other truthy _ => truthy
  end.

(** [ToString] of the field, as [encode] applies it to its argument. *)
Definition text_rendering (t : TextField) : string :=
  match t with
  | text_undefined => "undefined"
  | text_string s => s
  | text_other _ rendering => rendering
  end.

Record Delta := { delta_text : TextField }.

(** What [JSON.parse] returns for a chunk, seen through the fields the loop
    reads: [null], on which reading a property throws, or a value with its
    [type] (when it is a string) and its [delta] (when it is neither
    [undefined] nor [null]). *)
Inductive Parsed :=
| JNull
| JEnvelope (type : option string) (delta : option Delta).

(** One item of [response.body].  [bytes] holds the outcome of
    [JSON.parse(new TextDecoder().decode(bytes))] on the bytes received; an
    item without [chunk], or a [chunk] without [bytes], has [None]. *)
Record BedrockItem := { chunk_bytes : option (Result Parsed) }.

Definition type_error : Thrown :=
  ErrorObj "Cannot read properties of null (reading 'type')".

Definition str_is (v : option string) (s : string) : bool :=
  match v with Some t => String.eqb t s | None => false end.

(** The body of the [for await] loop. *)
Definition bedrock_chunk (c : Controller) (chunk : BedrockItem) : Controller :=
  match chunk_bytes chunk with
  | Some bytes =>
      match bytes with
      | Ok JNull => console_error c "Error parsing Bedrock chunk:" (Some type_error)
      | Ok (JEnvelope type delta) =>
          let text :=
            match delta with Some d => delta_text d | None => text_undefined end in
          if str_is type "message_start" || str_is type "content_block_start"
          then c
          else if (str_is type "content_block_delta" || str_is type "message_delta")
                  && text_truthy text
          then enqueue c (text_rendering text)
          else c
      | Throw parseError =>
          console_error c "Error parsing Bedrock chunk:" (Some parseError)
      end
  | None => c
  end.

(** [start(controller)] of the Bedrock stream. *)
Definition bedrock_start (body : option (Stream BedrockItem)) : Controller :=
  match body with
  | None =>
      close (console_error new_controller "No response body received from Bedrock" None)
  | Some s =>
      let c := fold_left bedrock_chunk (chunks s) new_controller in
      match failure s with
      | None => close c
      | Some e => error (console_error c "Bedrock streaming error:" (Some e)) e
      end
  end.

(** *** Anthropic event stream (the SDK's typed events) *)

Inductive AnthropicDelta :=
| text_delta (text : string)
| input_json_delta (partial_json : string).

Inductive AnthropicEvent :=
| message_start
| message_delta
| message_stop
| content_block_start
| content_block_delta (delta : AnthropicDelta)
| content_block_stop.

Definition anthropic_chunk (c : Controller) (chunk : AnthropicEvent) : Controller :=
  match chunk with
  | content_block_delta (text_delta text) => enqueue c text
  | _ => c
  end.

(** [start(controller)] of the Anthropic stream. *)
Definition anthropic_start (stream : Stream AnthropicEvent) : Controller :=
  let c := fold_left anthropic_chunk (chunks stream) new_controller in
  match failure stream with
  | None => close c
  | Some e => error (console_error c "Anthropic streaming error:" (Some e)) e
  end.

(** *** The normalisation of backend chunks as the specification words it *)

Module StreamSpec.

Inductive BackendChunk := Ignore | TextDelta (text : string).

(** The text a delta carries, if it carries one: a text field that is
    there and not empty (truthy), as the string it is sent as. *)
Definition carried_text (delta : option Delta) : option string :=
  match delta with
  | Some d => if text_truthy (delta_text d)
              then Some (text_rendering (delta_text d)) else None
  | None => None
  end.

(** Bedrock: an envelope of kind [content_block_delta] or [message_delta]
    carrying a text delta gives that text; every other chunk is ignored. *)
Definition of_bedrock (chunk : BedrockItem) : BackendChunk :=
  match chunk_bytes chunk with
  | Some (Ok (JEnvelope (Some kind) delta)) =>
      if String.eqb kind "content_block_delta" || String.eqb kind "message_delta"
      then match carried_text delta with
           | Some text => TextDelta text
           | None => Ignore
           end
      else Ignore
  | _ => Ignore
  end.

(** Anthropic: an event of kind [content_block_delta] whose delta is a
    text delta gives that text; every other event is ignored. *)
Definition of_anthropic (event : AnthropicEvent) : BackendChunk :=
  match event with
  | content_block_delta (text_delta text) => TextDelta text
  | _ => Ignore
  end.

(** The text payloads of a sequence of chunks, in arrival order. *)
Definition payloads (cs : list BackendChunk) : list string :=
  flat_map (fun c => match c with TextDelta text => [text] | Ignore => [] end) cs.

End StreamSpec.

(** ** The request handler *)

(** What [TIERS[...]] evaluates to, seen through the three fields the
    handler reads; a field that the value does not have is [None]. *)
Record TierSettings := {
  generations : option Z;
  maxTokens : option Z;
  anthropicModel : option string
}.

(** A member inherited from [Object.prototype]: none of the fields. *)
Definition prototype_member : TierSettings :=
  {| generations := None; maxTokens := None; anthropicModel := None |}.

Record User := { id : string }.

(** The JSON body of the user-fetch reply, as far as the handler reads it;
    a field that is absent is [None]. *)
Record UserData := {
  tier : option string;
  userData_generations : option Z
}.

(** A turn, as far as the handler reads it; a field that is absent is
    [None]. *)
Record Message := { role : option string; content : option string }.

(** The JSON body of the request.  [line] is kept as the text a template
    literal prints for it; an element of [messages] that is [null] is
    [None]. *)
Record RequestBody := {
  messages : list (option Message);
  context : option string;
  activeFileContent : option string;
  isEditMode : bool;
  fileName : option string;
  line : option string;
  templateType : option string;
  files : option (list Node);
  projectName : option string
}.

Record FetchResponse := { ok : bool }.

Record BedrockBody := {
  anthropic_version : string;
  max_tokens : option Z;
  temperature : string;
  bedrock_messages : list Message
}.

Record BedrockInput := {
  modelId : option string;
  contentType : string;
  accept : string;
  bedrock_body : BedrockBody
}.

Record AnthropicParams := {
  model : option string;
  anthropic_max_tokens : option Z;
  system : string;
  anthropic_messages : list Message;
  stream : bool
}.

(** The three endpoints of the profile store. *)
Inductive Endpoint := check_reset | user_by_id | increment_generations.

(** What the handler does to the outside, in order. *)
Inductive Event :=
| CurrentUser
| Fetch (endpoint : Endpoint) (method url : string) (userId : option string)
| RequestJson
| BedrockSend (input : BedrockInput)
| AnthropicCreate (params : AnthropicParams)
| ConsoleError (label : string) (detail : option Thrown).

(** What the outside answers to each call of one run of the handler. *)
Record World := {
  w_currentUser : Result (option User);
  w_checkReset : Result FetchResponse;
  w_dbUser : Result FetchResponse;
  w_dbUser_json : Result UserData;
  w_request_json : Result RequestBody;
  w_bedrockSend : Result (option (Stream BedrockItem));
  w_anthropicCreate : Result (Stream AnthropicEvent);
  w_increment : Result FetchResponse
}.

Inductive Body := Text (s : string) | ReadableStream (c : Controller).

Record Response := {
  status : Z;
  body : Body;
  headers : list (string * string)
}.

(** A computation that may throw and that records its events. *)
Definition M (A : Type) : Type := list Event -> Result A * list Event.

Definition ret {A} (a : A) : M A := fun t => (Ok a, t).

Definition bind {A B} (m : M A) (f : A -> M B) : M B :=
  fun t =>
    match m t with
    | (Ok a, t') => f a t'
    | (Throw e, t') => (Throw e, t')
    end.

Definition throw {A} (e : Thrown) : M A := fun t => (Throw e, t).

Definition emit (ev : Event) : M unit := fun t => (Ok tt, (t ++ [ev])%list).

(** [await] of a call whose outcome the world decides. *)
Definition await {A} (ev : Event) (r : Result A) : M A :=
  fun t => (r, (t ++ [ev])%list).

(** [await] of a promise that the world settles without a further call,
    and the evaluation of an expression that may throw. *)
Definition resolve {A} (r : Result A) : M A := fun t => (r, t).

Declare Scope route_scope.
Delimit Scope route_scope with route.
Notation "'let*' x := m 'in' k" := (bind m (fun x => k))
  (at level 10, x name, m at level 100, k at level 200,
   format "'[v' 'let*'  x  :=  m  'in' '/' k ']'") : route_scope.
Notation "m ;; k" := (bind m (fun _ => k))
  (at level 100, k at level 200, right associativity) : route_scope.

Definition stream_headers : list (string * string) :=
  [("Content-Type", "text/plain; charset=utf-8");
   ("Cache-Control", "no-cache");
   ("Connection", "keep-alive")].

Definition null_role_error : Thrown :=
  ErrorObj "Cannot read properties of null (reading 'role')".

(** [messages.map(msg => ({ role: msg.role === "human" ? "user" :
    "assistant", content: msg.content }))]; reading [role] of a [null]
    element throws. *)
Fixpoint map_roles (messages : list (option Message)) : Result (list Message) :=
  match messages with
  | [] => Ok []
  | None :: _ => Throw null_role_error
  | Some msg :: rest =>
      match map_roles rest with
      | Ok mapped =>
          Ok ({| role := Some (if str_is (role msg) "human" then "user" else "assistant");
                 content := content msg |} :: mapped)
      | Throw e => Throw e
      end
  end.

(** The same world with another answer to one call. *)
Definition with_checkReset (w : World) (r : Result FetchResponse) : World :=
  {| w_currentUser := w_currentUser w;
     w_checkReset := r;
     w_dbUser := w_dbUser w;
     w_dbUser_json := w_dbUser_json w;
     w_request_json := w_request_json w;
     w_bedrockSend := w_bedrockSend w;
     w_anthropicCreate := w_anthropicCreate w;
     w_increment := w_increment w |}.

Definition with_increment (w : World) (r : Result FetchResponse) : World :=
  {| w_currentUser := w_currentUser w;
     w_checkReset := w_checkReset w;
     w_dbUser := w_dbUser w;
     w_dbUser_json := w_dbUser_json w;
     w_request_json := w_request_json w;
     w_bedrockSend := w_bedrockSend w;
     w_anthropicCreate := w_anthropicCreate w;
     w_increment := r |}.

Definition is_backend_call (ev : Event) : bool :=
  match ev with
  | BedrockSend _ | AnthropicCreate _ => true
  | _ => false
  end.

Definition is_increment (ev : Event) : bool :=
  match ev with
  | Fetch increment_generations _ _ _ => true
  | _ => false
  end.

Definition is_console_error (ev : Event) : bool :=
  match ev with
  | ConsoleError _ _ => true
  | _ => false
  end.

(** The backend an event calls, if it calls one. *)
Definition backend_of (ev : Event) : option Backend :=
  match ev with
  | BedrockSend _ => Some RemoteManagedRuntime
  | AnthropicCreate _ => Some DirectProviderAPI
  | _ => None
  end.

(** The text of the 500 response for a caught exception. *)
Definition error_text (error : Thrown) : string :=
  match error with
  | ErrorObj message => message
  | NonError => "Internal Server Error"
  end.

(** A variable of [process.env] is present: set, and not to the empty
    string. *)
Definition present (env : Env) (key : string) : Prop :=
  exists v, env !! key = Some v /\ v <> "".

Section Route.

Local Open Scope route_scope.

(** From outside this file: the ignore lists and [localeCompare] used by
    the formatter, the tier table of lib/tiers, and the template registry
    of lib/templates with [JSON.stringify(_, null, 2)] on the values it
    holds.  Both tables are plain objects: [TIERS] and [templateConfigs]
    hold their own properties, and a key they do not own is looked up in
    [Object.prototype]. *)
Variable ignoredFiles : list string.
Variable ignoredFolders : list string.
Variable localeCompare : string -> string -> Z.
Variable TIERS : gmap string TierSettings.
Variable Json : Type.
Variable JSON_stringify : Json -> string.

Record TemplateConfig := {
  name : string;
  conventions : list string;
  dependencies : Json;
  scripts : Json
}.

Variable templateConfigs : gmap string TemplateConfig.

(** [TIERS[userData.tier] || TIERS.FREE]: the own entry of that name;
    failing that, for a name inherited from [Object.prototype], the
    inherited member, which is truthy; failing that, the own entry [FREE],
    or [undefined] ([None]) when there is none. *)
Definition tierSettings_of (userData : UserData) : option TierSettings :=
  match TIERS !! Js.interp (tier userData) with
  | Some t => Some t
  | None =>
      if Js.inherited (Js.interp (tier userData)) then Some prototype_member
      else TIERS !! "FREE"
  end.

(** [userData.generations >= tierSettings.generations]; a comparison with
    [undefined] is false. *)
Definition limit_reached (userData : UserData) (tierSettings : TierSettings) : bool :=
  match userData_generations userData, generations tierSettings with
  | Some g, Some limit => limit <=? g
  | _, _ => false
  end.

Definition templateContext (templateConfig : option TemplateConfig)
           (files : option (list Node)) : string :=
  match templateConfig with
  | Some cfg =>
      Js.join nl
        [ "";
          "Project Template: " ++ name cfg;
          "";
          "Current File Structure:";
          match files with
          | Some _ => formatFileStructure ignoredFiles ignoredFolders localeCompare files ""
          | None => "No files available"
          end;
          "";
          "Conventions:";
          Js.join nl (conventions cfg);
          "";
          "Dependencies:";
          JSON_stringify (dependencies cfg);
          "";
          "Scripts:";
          JSON_stringify (scripts cfg);
          "" ]
  | None => ""
  end.

(** The system message of edit mode, given the template context and the
    content of the first message. *)
Definition edit_message (templateContext : string) (req : RequestBody)
           (instructions : string) : string :=
  Js.join nl
    [ "You are an AI code editor working in a " ++ Js.interp (templateType req)
        ++ " project. Your task is to modify the given code based on the user's instructions. Only output the modified code, without any explanations or markdown formatting. The code should be a direct replacement for the existing code. If there is no code to modify, refer to the active file content and only output the code that is relevant to the user's instructions.... ";
      templateContext;
      "";
      "File: " ++ Js.interp (fileName req);
      "Line: " ++ Js.interp (line req);
      "";
      "Context:";
      Js.or (context req) "No additional context provided";
      "";
      "Active File Content:";
      Js.interp (activeFileContent req);
      "";
      "Instructions: " ++ instructions;
      "";
      "Respond only with the modified code that can directly replace the existing code." ].

(** The system message of the other mode. *)
Definition chat_message (templateContext : string) (req : RequestBody) : string :=
  Js.join nl
    [ "You are an intelligent programming assistant for a " ++ Js.interp (templateType req)
        ++ " project. Please respond to the following request concisely. When providing code:";
      "";
      "1. Format it using triple backticks (```) with the appropriate language identifier.";
      "2. Always specify the complete file path in the format:";
      "   " ++ Js.interp (projectName req) ++ "/filepath/to/file.ext";
      "";
      "3. If creating a new file, specify the path as:";
      "   " ++ Js.interp (projectName req) ++ "/filepath/to/file.ext (new file)";
      "";
      "4. Format your code blocks as:";
      "";
      Js.interp (projectName req) ++ "/filepath/to/file.ext";
      "```language";
      "code here";
      "```";
      "";
      "If multiple files are involved, repeat the format for each file. Provide a clear and concise explanation along with any code snippets. Keep your response brief and to the point.";
      "";
      "This is the project template:";
      templateContext;
      "";
      if Js.truthy (context req)
      then "Context:" ++ nl ++ Js.interp (context req) ++ nl else "";
      if Js.truthy (activeFileContent req)
      then "Active File Content:" ++ nl ++ Js.interp (activeFileContent req) ++ nl
      else "" ].

(** Thrown by [messages[0].content] when there is no first element, and
    when the first element is [null]. *)
Definition first_content_error : Thrown :=
  ErrorObj "Cannot read properties of undefined (reading 'content')".

Definition null_content_error : Thrown :=
  ErrorObj "Cannot read properties of null (reading 'content')".

Definition generations_error : Thrown :=
  ErrorObj "Cannot read properties of undefined (reading 'generations')".

Definition conventions_error : Thrown :=
  ErrorObj "Cannot read properties of undefined (reading 'join')".

(** [templateConfigs[templateType]]: the own entry of that name, or for a
    name inherited from [Object.prototype] the inherited member, or
    [undefined]. *)
Inductive TemplateLookup :=
| own_config (cfg : TemplateConfig)
| inherited_member
| unresolved.

Definition templateConfig_of (req : RequestBody) : TemplateLookup :=
  match templateConfigs !! Js.interp (templateType req) with
  | Some cfg => own_config cfg
  | None =>
      if Js.inherited (Js.interp (templateType req)) then inherited_member
      else unresolved
  end.

(** The statements from [const templateConfig = ...] to the end of the
    [if (isEditMode)] statement: the system message, or the exception
    thrown while it is built.  An inherited member is truthy and has no
    [conventions], so the template literal of the context throws on
    [conventions.join] before the message is begun. *)
Definition systemMessage (req : RequestBody) : Result string :=
  match
    match templateConfig_of req with
    | own_config cfg => Ok (templateContext (Some cfg) (files req))
    | inherited_member => Throw conventions_error
    | unresolved => Ok (templateContext None (files req))
    end
  with
  | Throw e => Throw e
  | Ok templateContext =>
      if isEditMode req then
        match messages req with
        | Some m0 :: _ => Ok (edit_message templateContext req (Js.interp (content m0)))
        | None :: _ => Throw null_content_error
        | [] => Throw first_content_error
        end
      else Ok (chat_message templateContext req)
  end.

Definition server_url (env : Env) (path : string) : string :=
  Js.interp (env !! "NEXT_PUBLIC_SERVER_URL") ++ path.

(** The part of the handler after the system message is built: the call
    of the selected backend, the increment, and the streamed response. *)
Definition dispatch (m : ModuleState) (env : Env) (w : World) (user : User)
           (tierSettings : TierSettings) (req : RequestBody)
           (systemMessage : string) : M Response :=
  if useBedrockClient m && bool_decide (is_Some (bedrockClient m)) then
    let* mapped := resolve (map_roles (messages req)) in
    let input :=
      {| modelId := env !! "AWS_ARN";
         contentType := "application/json";
         accept := "application/json";
         bedrock_body :=
           {| anthropic_version := "bedrock-2023-05-31";
              max_tokens := maxTokens tierSettings;
              temperature := "0.7"; (* the number 0.7 *)
              bedrock_messages :=
                {| role := Some "user"; content := Some systemMessage |} :: mapped |} |} in
    let* response := await (BedrockSend input) (w_bedrockSend w) in
    await (Fetch increment_generations "POST"
                 (server_url env "/api/user/increment-generations")
                 (Some (id user)))
          (w_increment w) ;;
    ret {| status := 200;
           body := ReadableStream (bedrock_start response);
           headers := stream_headers |}
  else
    let* mapped := resolve (map_roles (messages req)) in
    let params :=
      {| model := anthropicModel tierSettings;
         anthropic_max_tokens := maxTokens tierSettings;
         system := systemMessage;
         anthropic_messages := mapped;
         stream := true |} in
    let* stream := await (AnthropicCreate params) (w_anthropicCreate w) in
    await (Fetch increment_generations "POST"
                 (server_url env "/api/user/increment-generations")
                 (Some (id user)))
          (w_increment w) ;;
    ret {| status := 200;
           body := ReadableStream (anthropic_start stream);
           headers := stream_headers |}.

Definition text_response (s : string) (status : Z) : Response :=
  {| status := status; body := Text s; headers := [] |}.

(** The body of the handler's [try] block. *)
Definition POST_try (m : ModuleState) (env : Env) (w : World) : M Response :=
  let* user := await CurrentUser (w_currentUser w) in
  match user with
  | None => ret (text_response "Unauthorized" 401)
  | Some user =>
      let* resetResponse :=
        await (Fetch check_reset "POST" (server_url env "/api/user/check-reset")
                     (Some (id user)))
              (w_checkReset w) in
      (if negb (ok resetResponse)
       then emit (ConsoleError "Failed to check usage reset" None)
       else ret tt) ;;
      let* dbUser :=
        await (Fetch user_by_id "GET" (server_url env ("/api/user?id=" ++ id user)) None)
              (w_dbUser w) in
      let* userData := resolve (w_dbUser_json w) in
      let* tierSettings :=
        match tierSettings_of userData with
        | Some t => ret t
        | None => throw generations_error
        end in
      if limit_reached userData tierSettings then
        ret (text_response
               ("AI generation limit reached for your "
                  ++ Js.or (tier userData) "FREE" ++ " tier")
               429)
      else
        let* req := await RequestJson (w_request_json w) in
        let* systemMessage := resolve (systemMessage req) in
        dispatch m env w user tierSettings req systemMessage
  end.

(** [export async function POST(request)]: the response and the events of
    one run.  An exception that leaves the [try] block is logged and
    answered with status 500. *)
Definition POST (m : ModuleState) (env : Env) (w : World) : Response * list Event :=
  match POST_try m env w [] with
  | (Ok response, t) => (response, t)
  | (Throw error, t) =>
      (text_response (error_text error) 500,
       (t ++ [ConsoleError "AI generation error:" (Some error)])%list)
  end.

End Route.


(** ** Sample values, used in examples *)

Module Sample.

Definition TIERS : gmap string TierSettings :=
  {[ "FREE" := {| generations := Some 10; maxTokens := Some 1024;
                  anthropicModel := Some "claude-3-5-sonnet" |};
     "PRO" := {| generations := Some 500; maxTokens := Some 2048;
                 anthropicModel := Some "claude-3-5-sonnet" |} ]}.

(** No template is registered. *)
Definition templateConfigs : gmap string (TemplateConfig unit) := ∅.

Definition JSON_stringify (_ : unit) : string := "{}".

Definition env : Env := {[ "NEXT_PUBLIC_SERVER_URL" := "http://server" ]}.

Definition request (edit : bool) (msgs : list (option Message)) : RequestBody :=
  {| messages := msgs;
     context := None;
     activeFileContent := Some "const x=1";
     isEditMode := edit;
     fileName := Some "a.ts";
     line := Some "10";
     templateType := Some "unknown";
     files := None;
     projectName := Some "demo" |}.

Definition answer : Stream AnthropicEvent :=
  {| chunks := [message_start;
                content_block_delta (text_delta "Hel");
                content_block_delta (text_delta "lo");
                message_stop];
     failure := None |}.

(** A signed-in user with [count] generations used on the tier named
    [tier_name], sending [req]; every collaborator answers. *)
Definition world (tier_name : option string) (count : Z) (req : RequestBody) : World :=
  {| w_currentUser := Ok (Some {| id := "u1" |});
     w_checkReset := Ok {| ok := true |};
     w_dbUser := Ok {| ok := true |};
     w_dbUser_json := Ok {| tier := tier_name; userData_generations := Some count |};
     w_request_json := Ok req;
     w_bedrockSend := Throw NonError;
     w_anthropicCreate := Ok answer;
     w_increment := Ok {| ok := true |} |}.

Definition POST : ModuleState -> Env -> World -> Response * list Event :=
  POST [] [] length_compare TIERS unit JSON_stringify templateConfigs.

End Sample.


(** What one pass of the Bedrock loop body writes with [console.error]. *)
Definition bedrock_log (chunk : BedrockItem) : list (string * option Thrown) :=
  match chunk_bytes chunk with
  | Some (Throw e) => [("Error parsing Bedrock chunk:", Some e)]
  | Some (Ok JNull) => [("Error parsing Bedrock chunk:", Some type_error)]
  | _ => []
  end.

(** An event that calls neither a backend nor the increment endpoint. *)
Definition quiet (ev : Event) : Prop :=
  is_backend_call ev = false /\ is_increment ev = false.

(** The place of an event in the handler's fixed order of calls. *)
Definition phase (ev : Event) : nat :=
  match ev with
  | CurrentUser => 0
  | Fetch check_reset _ _ _ => 1
  | ConsoleError label _ =>
      if String.eqb label "Failed to check usage reset" then 2 else 7
  | Fetch user_by_id _ _ _ => 3
  | RequestJson => 4
  | BedrockSend _ | AnthropicCreate _ => 5
  | Fetch increment_generations _ _ _ => 6
  end%nat.

(** A Bedrock chunk on which the loop's [try] block throws. *)
Definition unparsable (chunk : BedrockItem) : bool :=
  match chunk_bytes chunk with
  | Some (Throw _) | Some (Ok JNull) => true
  | _ => false
  end.

Definition with_bedrockSend (w : World) (r : Result (option (Stream BedrockItem))) : World :=
  {| w_currentUser := w_currentUser w;
     w_checkReset := w_checkReset w;
     w_dbUser := w_dbUser w;
     w_dbUser_json := w_dbUser_json w;
     w_request_json := w_request_json w;
     w_bedrockSend := r;
     w_anthropicCreate := w_anthropicCreate w;
     w_increment := w_increment w |}.

Definition with_anthropicCreate (w : World) (r : Result (Stream AnthropicEvent)) : World :=
  {| w_currentUser := w_currentUser w;
     w_checkReset := w_checkReset w;
     w_dbUser := w_dbUser w;
     w_dbUser_json := w_dbUser_json w;
     w_request_json := w_request_json w;
     w_bedrockSend := w_bedrockSend w;
     w_anthropicCreate := r;
     w_increment := w_increment w |}.

Definition with_dbUser_json (w : World) (r : Result UserData) : World :=
  {| w_currentUser := w_currentUser w;
     w_checkReset := w_checkReset w;
     w_dbUser := w_dbUser w;
     w_dbUser_json := r;
     w_request_json := w_request_json w;
     w_bedrockSend := w_bedrockSend w;
     w_anthropicCreate := w_anthropicCreate w;
     w_increment := w_increment w |}.

(** ** The deploy button (frontend/components/editor/navbar/deploy.tsx) *)

Module Deploy.

Inductive Icon := Play | Pause.

(** What the component renders: one button with an icon and a label. *)
Record Button := { icon : Icon; label : string }.

(** [DeployButtonModal] for the current value of the [isDeploying] state. *)
Definition DeployButtonModal (isDeploying : bool) : Button :=
  {| icon := if isDeploying then Pause else Play;
     label := if isDeploying then "Deployed" else "Deploy" |}.

(** [handleDeploy]: the line written with [console.log], and the value
    handed to [setIsDeploying]. *)
Definition handleDeploy (isDeploying : bool) : string * bool :=
  (if isDeploying then "Stopping deployment..." else "Starting deployment...",
   negb isDeploying).

(** [useState(false)] *)
Definition initial : bool := false.

(** [n] clicks on the button, each handled and rendered before the next:
    the lines logged, oldest first, and the state left. *)
Fixpoint clicks (n : nat) (isDeploying : bool) : list string * bool :=
  match n with
  | O => ([], isDeploying)
  | S n' =>
      let (line, next) := handleDeploy isDeploying in
      let (lines, final) := clicks n' next in
      (line :: lines, final)
  end.

End Deploy.

(** [s.includes(x)]: [x] occurs in [s]. *)
Definition includes (s x : string) : Prop :=
  exists before after, s = before ++ x ++ after.

(** * Properties *)

(** ** Strings and sorting *)

Lemma map_In_map {A B : Type} (f : A -> B) (l : list A) :
  map_In l (fun x _ => f x) = List.map f l.
Proof. induction l as [|x l IH]; simpl; [reflexivity | now rewrite IH]. Qed.

Lemma map_In_ext {A B : Type} (l : list A) (f g : forall x, In x l -> B) :
  (forall x H, f x H = g x H) -> map_In l f = map_In l g.
Proof.
  induction l as [|x l IH]; simpl; intros E; [reflexivity|].
  rewrite E. f_equal. apply IH. intros; apply E.
Qed.

Lemma insert_In {A} (cmp : A -> A -> Z) x y l :
  In y (Js.insert cmp x l) <-> y = x \/ In y l.
Proof.
  induction l as [|z l IH]; simpl; [intuition|].
  destruct (0 <? cmp x z); simpl; rewrite ?IH; intuition.
Qed.

Lemma sort_In {A} (cmp : A -> A -> Z) y l :
  In y (Js.sort cmp l) <-> In y l.
Proof.
  induction l as [|x l IH]; simpl; [reflexivity|].
  rewrite insert_In, IH. intuition.
Qed.

Lemma append_nil_l (s : string) : "" ++ s = s.
Proof. reflexivity. Qed.

Lemma append_cons (c : ascii) (s t : string) : String c s ++ t = String c (s ++ t).
Proof. reflexivity. Qed.

Lemma endsWith_spec (s suffix : string) :
  Js.endsWith s suffix = true <-> exists pre, s = pre ++ suffix.
Proof.
  induction s as [|c s IH]; cbn [Js.endsWith].
  - destruct (String.eqb_spec "" suffix) as [<-|N].
    + split; [exists ""; reflexivity | reflexivity].
    + split; [discriminate|]. intros [pre E].
      destruct pre; [rewrite append_nil_l in E; congruence | discriminate].
  - destruct (String.eqb_spec (String c s) suffix) as [<-|N].
    + split; [exists ""; reflexivity | reflexivity].
    + rewrite IH. split.
      * intros [pre ->]. exists (String c pre). reflexivity.
      * intros [pre E]. destruct pre as [|c' pre].
        -- rewrite append_nil_l in E. congruence.
        -- rewrite append_cons in E. injection E as -> ->. eauto.
Qed.

Lemma replace_star_first (a b : string) :
  ~ In "*"%char (list_ascii_of_string a) ->
  Js.replace_star (a ++ String "*" b) = a ++ b.
Proof.
  induction a as [|c a IH]; intros H; [reflexivity|].
  rewrite !append_cons. cbn [Js.replace_star].
  destruct (Ascii.eqb_spec c "*"%char) as [->|N]; [simpl in H; tauto|].
  rewrite IH; [reflexivity | simpl in H; tauto].
Qed.

Lemma replace_star_none (a : string) :
  ~ In "*"%char (list_ascii_of_string a) -> Js.replace_star a = a.
Proof.
  induction a as [|c a IH]; intros H; [reflexivity|].
  cbn [Js.replace_star].
  destruct (Ascii.eqb_spec c "*"%char) as [->|N]; [simpl in H; tauto|].
  rewrite IH; [reflexivity | simpl in H; tauto].
Qed.

Lemma append_nonempty (a b c : string) : b <> "" -> a ++ b ++ c <> "".
Proof.
  intros H. destruct a; [|discriminate].
  rewrite append_nil_l. destruct b; [congruence | discriminate].
Qed.

Section SortFacts.
Context {A : Type} (cmp : A -> A -> Z).

Lemma insert_perm x l : Permutation (Js.insert cmp x l) (x :: l).
Proof.
  induction l as [|y l IH]; simpl; [reflexivity|].
  destruct (0 <? cmp x y); [|reflexivity].
  rewrite IH. apply perm_swap.
Qed.

Lemma insert_map {B} (f : B -> A) (cmp' : B -> B -> Z) x l :
  (forall a b, cmp' a b = cmp (f a) (f b)) ->
  List.map f (Js.insert cmp' x l) = Js.insert cmp (f x) (List.map f l).
Proof.
  intros E. induction l as [|y l IH]; [reflexivity|].
  cbn [Js.insert List.map]. rewrite E.
  destruct (0 <? cmp (f x) (f y)); cbn [List.map]; [now rewrite IH | reflexivity].
Qed.

Lemma sort_map {B} (f : B -> A) (cmp' : B -> B -> Z) l :
  (forall a b, cmp' a b = cmp (f a) (f b)) ->
  List.map f (Js.sort cmp' l) = Js.sort cmp (List.map f l).
Proof.
  intros E. induction l as [|x l IH]; [reflexivity|].
  cbn [Js.sort List.map]. rewrite insert_map by exact E. now rewrite IH.
Qed.

Lemma sort_perm l : Permutation (Js.sort cmp l) l.
Proof.
  induction l as [|x l IH]; simpl; [reflexivity|].
  rewrite insert_perm. now constructor.
Qed.

Hypothesis C : Js.consistent cmp.

Lemma cmp_gt_le a b : 0 < cmp a b -> cmp b a <= 0.
Proof. intros H. apply (Js.cmp_antisym cmp C) in H. lia. Qed.

Lemma cmp_zero_sym a b : cmp a b = 0 -> cmp b a = 0.
Proof.
  intros H. pose proof (Js.cmp_antisym cmp C a b). pose proof (Js.cmp_antisym cmp C b a). lia.
Qed.

Lemma insert_sorted x l :
  StronglySorted (Js.cmp_le cmp) l -> StronglySorted (Js.cmp_le cmp) (Js.insert cmp x l).
Proof.
  induction 1 as [|y l S IH F]; simpl; [repeat constructor|].
  destruct (0 <? cmp x y) eqn:E.
  - apply Z.ltb_lt in E. constructor; [exact IH|].
    apply List.Forall_forall. intros z Hz. apply insert_In in Hz as [->|Hz].
    + now apply cmp_gt_le.
    + rewrite List.Forall_forall in F. now apply F.
  - apply Z.ltb_ge in E. constructor; [now constructor|].
    constructor; [exact E|].
    rewrite List.Forall_forall in F |- *. intros z Hz.
    apply (Js.cmp_trans cmp C _ y); [exact E | now apply F].
Qed.

Lemma sort_sorted l : StronglySorted (Js.cmp_le cmp) (Js.sort cmp l).
Proof.
  induction l as [|x l IH]; simpl; [constructor | now apply insert_sorted].
Qed.

Lemma insert_stable w x l :
  List.filter (Js.cmp_eqv cmp w) (Js.insert cmp x l) = List.filter (Js.cmp_eqv cmp w) (x :: l).
Proof.
  induction l as [|y l IH]; [reflexivity|].
  cbn [Js.insert]. destruct (0 <? cmp x y) eqn:E; [|reflexivity].
  apply Z.ltb_lt in E.
  cbn [List.filter] in *. rewrite IH.
  unfold Js.cmp_eqv.
  destruct (Z.eqb_spec (cmp w x) 0) as [Hx|Hx]; [|reflexivity].
  destruct (Z.eqb_spec (cmp w y) 0) as [Hy|Hy]; [|reflexivity].
  exfalso. apply cmp_zero_sym in Hx.
  assert (cmp x y <= 0) by (apply (Js.cmp_trans cmp C _ w); lia). lia.
Qed.

Lemma sort_stable w l :
  List.filter (Js.cmp_eqv cmp w) (Js.sort cmp l) = List.filter (Js.cmp_eqv cmp w) l.
Proof.
  induction l as [|x l IH]; [reflexivity|].
  cbn [Js.sort]. rewrite insert_stable. cbn [List.filter]. now rewrite IH.
Qed.
End SortFacts.

(** ** The context formatter *)

Section FormatterFacts.

Variable ignoredFiles : list string.
Variable ignoredFolders : list string.
Variable localeCompare : string -> string -> Z.

Local Abbreviation fmt := (formatFileStructure ignoredFiles ignoredFolders localeCompare).
Local Abbreviation item_text := (render_item ignoredFiles ignoredFolders localeCompare).
Local Abbreviation line_of := (render_line ignoredFiles ignoredFolders localeCompare).
Local Abbreviation kept := (retained ignoredFiles ignoredFolders).
Local Abbreviation shown := (entries ignoredFiles ignoredFolders localeCompare).
Local Abbreviation sorted := (sortedItems localeCompare).
Local Abbreviation cmpI := (compareItems localeCompare).
Local Abbreviation by_name := (by_name localeCompare).
Local Abbreviation forget := (without_dropped_descendants ignoredFolders).

(** The defining equation of the formatter on an array, with the callback
    named. *)
Lemma formatFileStructure_Some items prefix :
  fmt (Some items) prefix =
  Js.join nl (Js.filter_Boolean (List.map (item_text prefix) (sorted items))).
Proof.
  simp formatFileStructure.
  rewrite <- map_In_map. f_equal. f_equal. apply map_In_ext.
  intros [name|name children] H; reflexivity.
Qed.

Lemma Boolean_nonempty s : s <> "" -> Js.Boolean (Some s) = true.
Proof. destruct s; [congruence | reflexivity]. Qed.

Lemma glyph_branch_nonempty : glyph_branch <> "".
Proof. discriminate. Qed.

(** [.filter(Boolean)] removes the [null]s and nothing else: no item's
    text is empty. *)
Lemma filter_Boolean_render prefix l :
  Js.filter_Boolean (List.map (item_text prefix) l) =
  List.map (line_of prefix) (List.filter kept l).
Proof.
  induction l as [|item l IH]; [reflexivity|].
  cbn [List.map List.filter Js.filter_Boolean].
  destruct item as [name|name children]; cbn [render_item retained render_line].
  - destruct (negb (file_ignored ignoredFiles name)); [|exact IH].
    rewrite Boolean_nonempty by (apply append_nonempty, glyph_branch_nonempty).
    cbn [List.map]. now rewrite IH.
  - destruct (negb (folder_ignored ignoredFolders name)); [|exact IH].
    cbv zeta.
    rewrite Boolean_nonempty by (apply append_nonempty, glyph_branch_nonempty).
    cbn [List.map]. now rewrite IH.
Qed.

Lemma formatFileStructure_entries items prefix :
  fmt (Some items) prefix = Js.join nl (List.map (line_of prefix) (shown items)).
Proof. rewrite formatFileStructure_Some. now rewrite filter_Boolean_render. Qed.

Lemma file_ignored_spec name :
  file_ignored ignoredFiles name = true <->
  exists pattern, In pattern ignoredFiles /\
    (name = pattern \/ exists pre, name = pre ++ Js.replace_star pattern).
Proof.
  unfold file_ignored, Js.some. rewrite existsb_exists.
  split; intros [pattern [Hin H]]; exists pattern; (split; [exact Hin|]).
  - apply orb_true_iff in H as [H|H].
    + right. now apply endsWith_spec.
    + left. now apply String.eqb_eq.
  - apply orb_true_iff. destruct H as [->|H].
    + right. apply String.eqb_refl.
    + left. now apply endsWith_spec.
Qed.

Lemma folder_ignored_spec name :
  folder_ignored ignoredFolders name = true <-> In name ignoredFolders.
Proof.
  unfold folder_ignored, Js.some. rewrite existsb_exists. split.
  - intros [folder [Hin H]]. apply String.eqb_eq in H. now subst.
  - intros H. exists name. split; [exact H | apply String.eqb_refl].
Qed.

Lemma entries_In item items :
  In item (shown items) <-> In item items /\ kept item = true.
Proof. unfold entries, sortedItems. now rewrite filter_In, sort_In. Qed.

Lemma without_dropped_compare a b :
  cmpI a b = cmpI (forget a) (forget b).
Proof.
  destruct a as [n|n c], b as [n'|n' c']; cbn [without_dropped_descendants];
    repeat match goal with |- context [folder_ignored ?l ?x] =>
                             destruct (folder_ignored l x) end; reflexivity.
Qed.

Lemma without_dropped_text prefix item :
  item_text prefix (forget item) = item_text prefix item.
Proof.
  destruct item as [n|n c]; cbn [without_dropped_descendants]; [reflexivity|].
  destruct (folder_ignored ignoredFolders n) eqn:E; [|reflexivity].
  cbn [render_item]. now rewrite E.
Qed.

Lemma formatFileStructure_without_dropped items prefix :
  fmt (Some (List.map forget items)) prefix =
  fmt (Some items) prefix.
Proof.
  rewrite !formatFileStructure_Some. unfold sortedItems.
  rewrite <- (sort_map cmpI forget cmpI)
    by apply without_dropped_compare.
  rewrite List.map_map. do 2 f_equal.
  apply map_ext. intros a. apply without_dropped_text.
Qed.

Lemma filter_StronglySorted {A} (R : A -> A -> Prop) (f : A -> bool) l :
  StronglySorted R l -> StronglySorted R (List.filter f l).
Proof.
  induction 1 as [|x l S IH F]; cbn [List.filter]; [constructor|].
  destruct (f x); [|exact IH]. constructor; [exact IH|].
  rewrite List.Forall_forall in F |- *. intros y Hy.
  apply filter_In in Hy as [Hy _]. now apply F.
Qed.

Lemma filter_filter_comm {A} (f g : A -> bool) l :
  List.filter f (List.filter g l) = List.filter g (List.filter f l).
Proof.
  induction l as [|x l IH]; [reflexivity|]. cbn [List.filter].
  destruct (g x) eqn:G, (f x) eqn:F; cbn [List.filter];
    rewrite ?G, ?F, IH; reflexivity.
Qed.

Lemma filter_perm {A} (f : A -> bool) l l' :
  Permutation l l' -> Permutation (List.filter f l) (List.filter f l').
Proof.
  induction 1 as [|x l l' P IH|x y l|l l' l'' P IH P' IH']; cbn [List.filter].
  - constructor.
  - destruct (f x); [now constructor | exact IH].
  - destruct (f x), (f y); try reflexivity. apply perm_swap.
  - etransitivity; eassumption.
Qed.

Lemma after_file_only_files x l :
  is_folder x = false ->
  Forall (Js.cmp_le cmpI x) l ->
  List.filter is_folder l = [] /\ List.filter is_file l = l.
Proof.
  intros Ex. induction 1 as [|y l Hy F IH]; [split; reflexivity|].
  destruct IH as [IH1 IH2]. cbn [List.filter]. unfold is_file at 1.
  destruct (is_folder y) eqn:Ey; cbn [negb].
  - exfalso. unfold Js.cmp_le, compareItems in Hy.
    rewrite Ex, Ey in Hy. cbn in Hy. lia.
  - split; [exact IH1 | now rewrite IH2].
Qed.

Lemma sorted_folders_first l :
  StronglySorted (Js.cmp_le cmpI) l ->
  l = (List.filter is_folder l ++ List.filter is_file l)%list.
Proof.
  induction 1 as [|x l S IH F]; [reflexivity|].
  cbn [List.filter]. unfold is_file at 1.
  destruct (is_folder x) eqn:Ex; cbn [negb].
  - cbn [app]. now rewrite <- IH.
  - destruct (after_file_only_files x l Ex F) as [-> ->]. reflexivity.
Qed.

Lemma sorted_same_kind (k : Node -> bool) l :
  (forall a b, k a = true -> k b = true -> is_folder a = is_folder b) ->
  StronglySorted (Js.cmp_le cmpI) l ->
  StronglySorted by_name (List.filter k l).
Proof.
  intros K. induction 1 as [|x l S IH F]; cbn [List.filter]; [constructor|].
  destruct (k x) eqn:Ex; [|exact IH]. constructor; [exact IH|].
  rewrite List.Forall_forall in F |- *. intros y Hy.
  apply filter_In in Hy as [Hy Ky]. specialize (F y Hy).
  unfold Js.cmp_le, compareItems in F. rewrite (K x y Ex Ky) in F.
  rewrite Bool.eqb_reflx in F. exact F.
Qed.

Lemma compareItems_consistent :
  Js.consistent localeCompare -> Js.consistent cmpI.
Proof.
  intros [R A T]. split.
  - intros a. unfold compareItems. rewrite Bool.eqb_reflx. apply R.
  - intros a b. unfold compareItems.
    destruct (is_folder a), (is_folder b); cbn; try apply A; lia.
  - intros a b c. unfold compareItems.
    destruct (is_folder a), (is_folder b), (is_folder c); cbn; try apply T; lia.
Qed.

Lemma sorted_apart {A : Type} (R : A -> A -> Prop) (before between after : list A) a b :
  StronglySorted R (before ++ a :: between ++ b :: after)%list -> R a b.
Proof.
  induction before as [|x l IH]; cbn [app]; intros S.
  - apply StronglySorted_inv in S as [_ F].
    rewrite List.Forall_forall in F. apply F, in_or_app. right. now left.
  - apply StronglySorted_inv in S as [S _]. now apply IH.
Qed.

(** C7.  With [localeCompare] a consistent and case-sensitive comparison of
    names, the items printed at a level (any array the formatter is called
    on, so every nesting level) are the retained items of that level
    arranged so that every folder stands before every file, folders among
    themselves and files among themselves stand in [localeCompare] order of
    their names, and items that compare as equal keep the order they had in
    the input; and the order is case-sensitive: of two printed items of the
    same kind whose names differ only in case, the one printed first has the
    name that [localeCompare] puts strictly first, wherever the two stood in
    the input. *)
Theorem formatFileStructure_order (items : list Node) (prefix : string) :
  Js.consistent localeCompare ->
  Spec.case_sensitive localeCompare ->
  fmt (Some items) prefix = Js.join nl (List.map (line_of prefix) (shown items))
  /\ shown items
     = (List.filter is_folder (shown items) ++ List.filter is_file (shown items))%list
  /\ StronglySorted by_name (List.filter is_folder (shown items))
  /\ StronglySorted by_name (List.filter is_file (shown items))
  /\ Permutation (shown items) (List.filter kept items)
  /\ (forall w,
        List.filter (Js.cmp_eqv cmpI w) (shown items)
        = List.filter (Js.cmp_eqv cmpI w) (List.filter kept items))
  /\ (forall before a between b after,
        shown items = (before ++ a :: between ++ b :: after)%list ->
        is_folder a = is_folder b ->
        Spec.lower (node_name a) = Spec.lower (node_name b) ->
        node_name a <> node_name b ->
        localeCompare (node_name a) (node_name b) < 0).
Proof.
  intros C CS. apply compareItems_consistent in C.
  assert (S : StronglySorted (Js.cmp_le cmpI) (shown items)).
  { apply filter_StronglySorted, sort_sorted, C. }
  split; [apply formatFileStructure_entries|].
  split; [now apply sorted_folders_first|].
  split.
  { unfold entries in *. rewrite filter_filter_comm.
    apply filter_StronglySorted.
    apply sorted_same_kind; [|apply sort_sorted, C].
    intros a b Ha Hb. congruence. }
  split.
  { unfold entries in *. rewrite filter_filter_comm.
    apply filter_StronglySorted.
    apply sorted_same_kind; [|apply sort_sorted, C].
    unfold is_file. intros a b Ha Hb.
    destruct (is_folder a), (is_folder b); cbn in *; congruence. }
  split.
  { unfold entries, sortedItems. apply filter_perm, sort_perm. }
  split.
  { intros w. unfold entries, sortedItems.
    rewrite !(filter_filter_comm (Js.cmp_eqv cmpI w)).
    f_equal. apply sort_stable, C. }
  intros before a between b after E K L N.
  rewrite E in S. apply sorted_apart in S.
  unfold Js.cmp_le, compareItems in S. rewrite K, Bool.eqb_reflx in S.
  destruct (Z.eq_dec (localeCompare (node_name a) (node_name b)) 0) as [Z0|NZ]; [|lia].
  contradiction N. now apply CS.
Qed.

(** C6, as amended.  The text returned for an array is the lines of its
    retained items, joined; an item of the array is retained unless it is
    a file whose name equals an ignore pattern or ends with the pattern
    from which [replace] has removed its first [*] (wherever that [*]
    stands), or a folder whose name is in the ignored-folder list; and the
    children of a dropped folder have no influence on the text. *)
Theorem formatFileStructure_filtering (items : list Node) (prefix : string) :
  fmt (Some items) prefix = Js.join nl (List.map (line_of prefix) (shown items))
  /\ (forall item, In item (shown items) <-> In item items /\ kept item = true)
  /\ (forall name,
        kept (TFile name) = false <->
        exists pattern, In pattern ignoredFiles /\
          (name = pattern \/ exists pre, name = pre ++ Js.replace_star pattern))
  /\ (forall a b,
        ~ In "*"%char (list_ascii_of_string a) ->
        Js.replace_star (a ++ String "*" b) = a ++ b)
  /\ (forall a,
        ~ In "*"%char (list_ascii_of_string a) -> Js.replace_star a = a)
  /\ (forall name children,
        kept (TFolder name children) = false <-> In name ignoredFolders)
  /\ fmt (Some (List.map (without_dropped_descendants ignoredFolders) items)) prefix
     = fmt (Some items) prefix.
Proof.
  split; [apply formatFileStructure_entries|].
  split; [intros item; apply entries_In|].
  split.
  { intros name. cbn [retained]. rewrite negb_false_iff. apply file_ignored_spec. }
  split; [apply replace_star_first|].
  split; [apply replace_star_none|].
  split.
  { intros name children. cbn [retained]. rewrite negb_false_iff.
    apply folder_ignored_spec. }
  apply formatFileStructure_without_dropped.
Qed.

Lemma append_inj_l (a x y : string) : a ++ x = a ++ y -> x = y.
Proof.
  induction a as [|c a IH]; [trivial|].
  rewrite !append_cons. intros H. injection H as H. now apply IH.
Qed.

(** C10.  A folder that is not ignored and whose [children] is absent or
    not an array is printed, under any prefix and at any level, as its own
    line followed directly by the unprefixed text [No files available];
    this differs from the text of the same folder with no children. *)
Theorem no_files_fallback_under_folder (items : list Node) (prefix name : string) :
  In (TFolder name None) items ->
  ~ In name ignoredFolders ->
  fmt None prefix = "No files available"
  /\ line_of prefix (TFolder name None)
     = prefix ++ glyph_branch ++ name ++ "/" ++ nl ++ "No files available"
  /\ line_of prefix (TFolder name None) <> line_of prefix (TFolder name (Some []))
  /\ exists before after,
       fmt (Some items) prefix
       = Js.join nl (before ++ line_of prefix (TFolder name None) :: after).
Proof.
  intros Hin Hname.
  assert (E : fmt None (prefix ++ glyph_pipe) = "No files available")
    by now simp formatFileStructure.
  split; [now simp formatFileStructure|].
  split; [cbn [render_line]; now rewrite E|].
  split.
  { cbn [render_line]. rewrite E, formatFileStructure_Some. cbn.
    intros H. do 5 apply append_inj_l in H. discriminate H. }
  assert (K : In (TFolder name None) (shown items)).
  { apply entries_In. split; [exact Hin|]. cbn [retained].
    apply negb_true_iff. destruct (folder_ignored ignoredFolders name) eqn:F; [|reflexivity].
    apply folder_ignored_spec in F. contradiction. }
  apply in_split in K as [l1 [l2 K]].
  exists (List.map (line_of prefix) l1), (List.map (line_of prefix) l2).
  rewrite formatFileStructure_entries, K, List.map_app. reflexivity.
Qed.
End FormatterFacts.

(** *** The formatter at sample inputs *)


Lemma code_unit_compare_consistent : Js.consistent code_unit_compare.
Proof.
  assert (Lt_iff : forall a b, String.compare a b = Lt <-> OrderedTypeEx.String_as_OT.lt a b)
    by exact OrderedTypeEx.String_as_OT.cmp_lt.
  assert (Gt_iff : forall a b, String.compare a b = Gt <-> String.compare b a = Lt).
  { intros a b. rewrite (String.compare_antisym a b).
    destruct (String.compare b a); cbn; split; congruence. }
  split; unfold code_unit_compare.
  - intros a. destruct (String.compare a a) eqn:E; [reflexivity| |].
    + apply Lt_iff, OrderedTypeEx.String_as_OT.lt_not_eq in E. now contradiction E.
    + apply Gt_iff, Lt_iff, OrderedTypeEx.String_as_OT.lt_not_eq in E. now contradiction E.
  - intros a b. rewrite (String.compare_antisym b a).
    destruct (String.compare a b); cbn; lia.
  - intros a b c.
    destruct (String.compare a b) eqn:E1; [| |lia];
      destruct (String.compare b c) eqn:E2; try lia; intros _ _.
    + apply String.compare_eq_iff in E1, E2. subst.
      destruct (String.compare c c) eqn:E; try lia.
      apply Gt_iff, Lt_iff, OrderedTypeEx.String_as_OT.lt_not_eq in E. now contradiction E.
    + apply String.compare_eq_iff in E1. subst. rewrite E2. lia.
    + apply String.compare_eq_iff in E2. subst. rewrite E1. lia.
    + apply Lt_iff in E1, E2.
      pose proof (OrderedTypeEx.String_as_OT.lt_trans _ _ _ E1 E2) as T.
      apply Lt_iff in T. rewrite T. lia.
Qed.

Lemma code_unit_compare_case_sensitive : Spec.case_sensitive code_unit_compare.
Proof.
  intros a b _. unfold code_unit_compare.
  destruct (String.compare a b) eqn:E; try discriminate.
  intros _. now apply String.compare_eq_iff.
Qed.

Lemma formatFileStructure_order_witness :
  let items := [TFile "readme.md"; TFolder "src" (Some []); TFile "README.md";
                TFolder "App" None] in
  let shown := entries [] [] code_unit_compare items in
  shown = [TFolder "App" None; TFolder "src" (Some []); TFile "README.md"; TFile "readme.md"]
  /\ formatFileStructure [] [] code_unit_compare (Some items) ""
     = Js.join nl (List.map (render_line [] [] code_unit_compare "") shown)
  /\ StronglySorted (by_name code_unit_compare) (List.filter is_file shown)
  /\ code_unit_compare "README.md" "readme.md" < 0.
Proof.
  intros items shown.
  destruct (formatFileStructure_order [] [] code_unit_compare items ""
              code_unit_compare_consistent code_unit_compare_case_sensitive)
    as (F & _ & _ & S & _ & _ & O).
  split; [reflexivity|]. split; [exact F|]. split; [exact S|].
  apply (O [TFolder "App" None; TFolder "src" (Some [])]
           (TFile "README.md") [] (TFile "readme.md") []);
    [reflexivity | reflexivity | reflexivity | discriminate].
Defined.


Lemma trailing_wildcard_reading_fails :
  Spec.file_matches ["*.log"] "app.log" = false
  /\ retained ["*.log"] [] (TFile "app.log") = false
  /\ formatFileStructure ["*.log"] [] length_compare (Some [TFile "app.log"]) "" = "".
Proof. repeat split. Qed.

Lemma no_files_fallback_under_folder_witness :
  formatFileStructure [] ["dist"] length_compare None "│   " = "No files available"
  /\ exists before after,
       formatFileStructure [] ["dist"] length_compare
         (Some [TFile "a.ts"; TFolder "src" None]) "│   "
       = Js.join nl (before ++ ("│   ├── src/" ++ nl ++ "No files available") :: after).
Proof.
  destruct (no_files_fallback_under_folder [] ["dist"] length_compare
              [TFile "a.ts"; TFolder "src" None] "│   " "src")
    as [H1 [H2 [_ H4]]].
  - simpl. tauto.
  - simpl. intros [H|[]]. discriminate H.
  - split; [exact H1|]. exact H4.
Defined.

(** ** The stream loops *)

Import StreamSpec.

Lemma payloads_app (a b : list BackendChunk) :
  payloads (a ++ b) = (payloads a ++ payloads b)%list.
Proof. unfold payloads. apply flat_map_app. Qed.

Lemma enqueued_fragments (fs : list string) (last : list ControllerCall) co :
  enqueued {| calls := (List.map Enqueue fs ++ last)%list; console := co |}
  = (fs ++ enqueued {| calls := last; console := co |})%list.
Proof.
  unfold enqueued. cbn [calls]. rewrite flat_map_app. f_equal.
  induction fs as [|f fs IH]; [reflexivity|]. cbn [List.map flat_map app].
  now rewrite IH.
Qed.

Lemma state_fragments (fs : list string) (last : list ControllerCall) co :
  state {| calls := (List.map Enqueue fs ++ last)%list; console := co |}
  = state {| calls := last; console := co |}.
Proof.
  unfold state. cbn [calls]. rewrite fold_left_app. f_equal.
  induction fs as [|f fs IH]; [reflexivity|]. exact IH.
Qed.

Lemma bedrock_chunk_effect (c : Controller) (chunk : BedrockItem) :
  bedrock_chunk c chunk =
  {| calls := (calls c ++ List.map Enqueue (payloads [of_bedrock chunk]))%list;
     console := (console c ++ bedrock_log chunk)%list |}.
Proof.
  destruct c as [q co].
  destruct chunk as [[[[|type delta]|e]|]];
    unfold bedrock_chunk, of_bedrock, bedrock_log, console_error, enqueue;
    cbn [chunk_bytes calls console payloads flat_map List.map app];
    rewrite ?app_nil_r; try reflexivity.
  assert (T : match delta with Some d => delta_text d | None => text_undefined end
              = match delta with Some d => delta_text d | None => text_undefined end)
    by reflexivity.
  unfold carried_text.
  destruct type as [kind|]; cbn [str_is].
  2:{ cbn [orb andb]. now rewrite ?app_nil_r. }
  destruct (String.eqb_spec kind "message_start") as [->|N1].
  { cbn. now rewrite ?app_nil_r. }
  destruct (String.eqb_spec kind "content_block_start") as [->|N2].
  { cbn. now rewrite ?app_nil_r. }
  cbn [orb].
  destruct (String.eqb kind "content_block_delta" || String.eqb kind "message_delta");
    cbn [andb]; [|cbn; now rewrite app_nil_r].
  destruct delta as [[t]|]; cbn [delta_text text_truthy];
    [|cbn; now rewrite app_nil_r].
  destruct (text_truthy t); cbn; now rewrite ?app_nil_r.
Qed.

Lemma bedrock_loop_effect (l : list BedrockItem) (c : Controller) :
  fold_left bedrock_chunk l c =
  {| calls := (calls c ++ List.map Enqueue (payloads (List.map of_bedrock l)))%list;
     console := (console c ++ flat_map bedrock_log l)%list |}.
Proof.
  revert c. induction l as [|chunk l IH]; intros c.
  - cbn. rewrite !app_nil_r. now destruct c.
  - cbn [fold_left]. rewrite IH, bedrock_chunk_effect.
    cbn [calls console List.map flat_map].
    change (of_bedrock chunk :: List.map of_bedrock l)
      with ([of_bedrock chunk] ++ List.map of_bedrock l)%list.
    rewrite payloads_app, List.map_app, !app_assoc. reflexivity.
Qed.

Lemma anthropic_loop_effect (l : list AnthropicEvent) (c : Controller) :
  fold_left anthropic_chunk l c =
  {| calls := (calls c ++ List.map Enqueue (payloads (List.map of_anthropic l)))%list;
     console := console c |}.
Proof.
  revert c. induction l as [|chunk l IH]; intros c.
  - cbn. rewrite app_nil_r. now destruct c.
  - cbn [fold_left]. rewrite IH.
    change (List.map of_anthropic (chunk :: l))
      with ([of_anthropic chunk] ++ List.map of_anthropic l)%list.
    rewrite payloads_app, List.map_app, app_assoc.
    destruct chunk as [| | | |[text|json]|]; cbn; rewrite ?app_nil_r; reflexivity.
Qed.

(** The calls of [start] on a Bedrock stream: one [enqueue] for each text
    payload, then one [close] or one [error]. *)
Lemma bedrock_start_calls (s : Stream BedrockItem) :
  bedrock_start (Some s)
  = {| calls := (List.map Enqueue (payloads (List.map of_bedrock (chunks s)))
                   ++ [match failure s with None => Close | Some e => Error e end])%list;
       console := (flat_map bedrock_log (chunks s)
                     ++ match failure s with
                        | None => []
                        | Some e => [("Bedrock streaming error:", Some e)]
                        end)%list |}.
Proof.
  unfold bedrock_start. cbv zeta. rewrite bedrock_loop_effect.
  destruct (failure s); cbn; rewrite ?app_nil_r; reflexivity.
Qed.

Lemma anthropic_start_calls (s : Stream AnthropicEvent) :
  anthropic_start s
  = {| calls := (List.map Enqueue (payloads (List.map of_anthropic (chunks s)))
                   ++ [match failure s with None => Close | Some e => Error e end])%list;
       console := match failure s with
                  | None => []
                  | Some e => [("Anthropic streaming error:", Some e)]
                  end |}.
Proof.
  unfold anthropic_start. cbv zeta. rewrite anthropic_loop_effect.
  destruct (failure s); reflexivity.
Qed.

Lemma bedrock_start_enqueued (s : Stream BedrockItem) :
  enqueued (bedrock_start (Some s)) = payloads (List.map of_bedrock (chunks s)).
Proof.
  rewrite bedrock_start_calls, enqueued_fragments.
  destruct (failure s); cbn; apply app_nil_r.
Qed.




(** ** Backend selection *)

Lemma truthy_present (env : Env) (key : string) :
  Js.truthy (env !! key) = true <-> present env key.
Proof.
  unfold present. destruct (env !! key) as [v|]; cbn.
  - destruct v; split; try discriminate.
    + intros [v [E N]]. injection E as <-. congruence.
    + intros _. eexists. split; [reflexivity | discriminate].
    + reflexivity.
  - split; [discriminate | intros [v [E _]]; discriminate].
Qed.

Lemma and_truthy (a b : option string) :
  Js.truthy (Js.and a b) = Js.truthy a && Js.truthy b.
Proof. unfold Js.and. destruct (Js.truthy a) eqn:E; [reflexivity | exact E]. Qed.

Lemma useBedrockClient_init (env : Env) :
  useBedrockClient (init env) = true <->
  present env "AWS_ACCESS_KEY_ID" /\ present env "AWS_SECRET_ACCESS_KEY"
  /\ present env "AWS_REGION" /\ present env "AWS_ARN".
Proof.
  cbn [init useBedrockClient]. rewrite !and_truthy, !andb_true_iff, !truthy_present.
  tauto.
Qed.

Lemma selected_init (env : Env) :
  selected (init env)
  = if useBedrockClient (init env) then RemoteManagedRuntime else DirectProviderAPI.
Proof.
  unfold selected. cbn [init useBedrockClient bedrockClient].
  destruct (Js.truthy _); reflexivity.
Qed.

Section RouteFacts.

Local Open Scope route_scope.

Variable ignoredFiles : list string.
Variable ignoredFolders : list string.
Variable localeCompare : string -> string -> Z.
Variable TIERS : gmap string TierSettings.
Variable Json : Type.
Variable JSON_stringify : Json -> string.
Variable templateConfigs : gmap string (TemplateConfig Json).

Local Abbreviation run_POST :=
  (POST ignoredFiles ignoredFolders localeCompare TIERS Json JSON_stringify
        templateConfigs).
Local Abbreviation run_POST_try :=
  (POST_try ignoredFiles ignoredFolders localeCompare TIERS Json JSON_stringify
            templateConfigs).
Local Abbreviation system_message :=
  (systemMessage ignoredFiles ignoredFolders localeCompare Json JSON_stringify
                 templateConfigs).
Local Abbreviation template_context :=
  (templateContext ignoredFiles ignoredFolders localeCompare Json JSON_stringify).
Local Abbreviation tier_of := (tierSettings_of TIERS).
Local Abbreviation template_of := (templateConfig_of Json templateConfigs).

(** The events of the dispatch are appended to those before it, and its
    response does not depend on them. *)
Lemma dispatch_from m env w user ts req sm t :
  dispatch m env w user ts req sm t
  = (fst (dispatch m env w user ts req sm []),
     (t ++ snd (dispatch m env w user ts req sm []))%list).
Proof.
  unfold dispatch, bind, await, resolve, ret.
  destruct (useBedrockClient m && bool_decide (is_Some (bedrockClient m)));
    (destruct (map_roles (messages req)); [|now rewrite app_nil_r]);
    [destruct (w_bedrockSend w) | destruct (w_anthropicCreate w)];
    try destruct (w_increment w);
    cbn [fst snd app]; rewrite <- ?app_assoc; reflexivity.
Qed.

Lemma dispatch_events m env w user ts req sm :
  let evs := snd (dispatch m env w user ts req sm []) in
  (forall ev b, In ev evs -> backend_of ev = Some b -> b = selected m)
  /\ (length (List.filter is_increment evs) <= 1)%nat
  /\ ((exists mapped, map_roles (messages req) = Ok mapped) ->
      Exists (fun ev => is_backend_call ev = true) evs).
Proof.
  unfold dispatch, selected, bind, await, resolve, ret.
  destruct (useBedrockClient m && bool_decide (is_Some (bedrockClient m)));
    (destruct (map_roles (messages req));
     [|cbn; split; [intros ev b []|]; split; [lia|]; intros [mapped H]; discriminate H]);
    [destruct (w_bedrockSend w) | destruct (w_anthropicCreate w)];
    try destruct (w_increment w);
    cbn;
    (split; [intros ev b H E; intuition (subst; cbn in E; congruence)|]);
    (split; [lia|]); intros _; apply Exists_cons_hd; reflexivity.
Qed.

(** The body of a response of the dispatch is the stream that [start] fills
    from the stream of the selected backend. *)
Lemma dispatch_body m env w user ts req sm response :
  fst (dispatch m env w user ts req sm []) = Ok response ->
  status response = 200
  /\ ((selected m = RemoteManagedRuntime
       /\ exists b, w_bedrockSend w = Ok b
                    /\ body response = ReadableStream (bedrock_start b))
      \/ (selected m = DirectProviderAPI
          /\ exists s, w_anthropicCreate w = Ok s
                       /\ body response = ReadableStream (anthropic_start s))).
Proof.
  unfold dispatch, selected, bind, await, resolve, ret.
  destruct (useBedrockClient m && bool_decide (is_Some (bedrockClient m)));
    (destruct (map_roles (messages req)) as [mapped|]; [|discriminate]);
    [destruct (w_bedrockSend w) as [b|] | destruct (w_anthropicCreate w) as [a|]];
    try destruct (w_increment w); cbn [fst]; try discriminate;
    intros [= <-]; (split; [reflexivity|]); [left | right]; eauto.
Qed.

Lemma dispatch_increment_rejected m env w user ts req sm e :
  let run := dispatch m env (with_increment w (Throw e)) user ts req sm [] in
  Exists (fun ev => is_increment ev = true) (snd run) -> fst run = Throw e.
Proof.
  unfold dispatch, bind, await, resolve, ret.
  cbn [with_increment w_increment w_bedrockSend w_anthropicCreate].
  destruct (useBedrockClient m && bool_decide (is_Some (bedrockClient m)));
    (destruct (map_roles (messages req)); [|cbn; intros H; inversion H]);
    [destruct (w_bedrockSend w) | destruct (w_anthropicCreate w)]; cbn;
    trivial; intros H; repeat (apply List.Exists_cons in H as [H|H]; [discriminate H|]);
    inversion H.
Qed.

(** The handler up to the quota check. *)
Lemma POST_try_to_gate m env w user rr du ud ts :
  w_currentUser w = Ok (Some user) ->
  w_checkReset w = Ok rr ->
  w_dbUser w = Ok du ->
  w_dbUser_json w = Ok ud ->
  tier_of ud = Some ts ->
  let before :=
    ([CurrentUser;
      Fetch check_reset "POST" (server_url env "/api/user/check-reset") (Some (id user))]
       ++ (if ok rr then [] else [ConsoleError "Failed to check usage reset" None])
       ++ [Fetch user_by_id "GET" (server_url env ("/api/user?id=" ++ id user)) None])%list in
  run_POST_try m env w [] =
  if limit_reached ud ts then
    (Ok (text_response
           ("AI generation limit reached for your " ++ Js.or (tier ud) "FREE" ++ " tier")
           429),
     before)
  else
    match w_request_json w with
    | Throw e => (Throw e, (before ++ [RequestJson])%list)
    | Ok req =>
        match system_message req with
        | Throw e => (Throw e, (before ++ [RequestJson])%list)
        | Ok sm => dispatch m env w user ts req sm (before ++ [RequestJson])%list
        end
    end.
Proof.
  intros H1 H2 H3 H4 H5 before. subst before.
  unfold POST_try, bind, await, resolve, ret, throw, emit.
  rewrite H1, H2, H3, H4, H5. cbn [app].
  destruct rr as [[|]]; cbn [ok negb app];
    (destruct (limit_reached ud ts); [reflexivity|]);
    (destruct (w_request_json w) as [req|e]; [|reflexivity]);
    (destruct (system_message req) as [sm|e]; reflexivity).
Qed.

(** Every run either stops before the dispatch, having called neither a
    backend nor the increment endpoint and answering, if at all, with a
    text, or reaches the dispatch. *)
Lemma POST_try_cases m env w :
  (exists r evs,
      run_POST_try m env w [] = (r, evs)
      /\ Forall quiet evs
      /\ forall response, r = Ok response -> exists s st, response = text_response s st)
  \/ (exists user ts req sm before,
        run_POST_try m env w [] = dispatch m env w user ts req sm before
        /\ Forall quiet before).
Proof.
  assert (T : forall (r : Result Response) evs,
             Forall quiet evs ->
             (forall response, r = Ok response -> exists s st, response = text_response s st) ->
             exists r' evs',
               (r, evs) = (r', evs') /\ Forall quiet evs'
               /\ forall response, r' = Ok response ->
                                   exists s st, response = text_response s st)
    by (intros r evs Q R; exists r, evs; auto).
  assert (N : forall e response,
             @Throw Response e = Ok response -> exists s st, response = text_response s st)
    by (intros e response H; discriminate H).
  unfold POST_try, bind, await, resolve, ret, throw, emit.
  destruct (w_currentUser w) as [[user|]|e]; cbn [app].
  2: left; apply T; [repeat constructor | intros response [= <-]; eauto].
  2: left; apply T; [repeat constructor | apply N].
  destruct (w_checkReset w) as [rr|e]; cbn [app].
  2: left; apply T; [repeat constructor | apply N].
  destruct (negb (ok rr)); cbn [app].
  all: destruct (w_dbUser w) as [du|e]; cbn [app];
    [|left; apply T; [repeat constructor | apply N]].
  all: destruct (w_dbUser_json w) as [ud|e];
    [|left; apply T; [repeat constructor | apply N]].
  all: destruct (tier_of ud) as [ts|];
    [|left; apply T; [repeat constructor | apply N]].
  all: destruct (limit_reached ud ts);
    [left; apply T; [repeat constructor | intros response [= <-]; eauto]|].
  all: destruct (w_request_json w) as [req|e]; cbn [app];
    [|left; apply T; [repeat constructor | apply N]].
  all: destruct (system_message req) as [sm|e];
    [|left; apply T; [repeat constructor | apply N]].
  all: right; exists user, ts, req, sm; eexists; split; [reflexivity|];
    repeat constructor.
Qed.

(** A streamed response is the stream that [start] fills from the stream
    of the backend fixed at load time. *)
Lemma POST_stream_body m env w c :
  body (fst (run_POST m env w)) = ReadableStream c ->
  (selected m = RemoteManagedRuntime
   /\ exists b, w_bedrockSend w = Ok b /\ c = bedrock_start b)
  \/ (selected m = DirectProviderAPI
      /\ exists s, w_anthropicCreate w = Ok s /\ c = anthropic_start s).
Proof.
  unfold POST.
  destruct (POST_try_cases m env w)
    as [(r & evs & -> & _ & R)|(user & ts & req & sm & before & -> & _)].
  - destruct r as [response|e]; cbn [fst body text_response]; [|discriminate].
    destruct (R response eq_refl) as (s & st & ->). discriminate.
  - rewrite dispatch_from.
    pose proof (dispatch_body m env w user ts req sm) as D.
    destruct (fst (dispatch m env w user ts req sm [])) as [response|e];
      cbn [fst body text_response]; [|discriminate].
    intros H. destruct (D response eq_refl) as [_ [(S & b & E & B)|(S & a & E & B)]];
      rewrite B in H; injection H as <-; eauto.
Qed.

Lemma quiet_backend evs ev b :
  Forall quiet evs -> In ev evs -> backend_of ev = Some b -> False.
Proof.
  intros F H E. rewrite List.Forall_forall in F. destruct (F ev H) as [Q _].
  destruct ev; cbn in *; congruence.
Qed.

Lemma quiet_no_increment evs :
  Forall quiet evs -> List.filter is_increment evs = [].
Proof.
  induction 1 as [|ev evs [_ Q] F IH]; [reflexivity|].
  cbn [List.filter]. now rewrite Q.
Qed.

Lemma POST_events m env w :
  let evs := snd (run_POST m env w) in
  (forall ev b, In ev evs -> backend_of ev = Some b -> b = selected m)
  /\ (length (List.filter is_increment evs) <= 1)%nat.
Proof.
  unfold POST.
  destruct (POST_try_cases m env w)
    as [(r & evs & -> & Q & _)|(user & ts & req & sm & before & -> & Q)].
  - assert (Q' : forall e, Forall quiet (evs ++ [ConsoleError "AI generation error:" e])%list).
    { intros e. apply Forall_app. split; [exact Q | repeat constructor]. }
    destruct r as [r|e]; cbn [snd]; split;
      try (intros ev b H E; exfalso; eauto using quiet_backend);
      rewrite quiet_no_increment by auto; cbn; lia.
  - rewrite dispatch_from.
    destruct (dispatch_events m env w user ts req sm) as (B & I & _).
    set (d := dispatch m env w user ts req sm []) in *.
    assert (G : forall tail,
               Forall quiet tail ->
               (forall ev b, In ev (before ++ snd d ++ tail)%list ->
                             backend_of ev = Some b -> b = selected m)
               /\ (length (List.filter is_increment (before ++ snd d ++ tail)%list) <= 1)%nat).
    { intros tail T. split.
      - intros ev b H E. apply in_app_or in H as [H|H];
          [exfalso; eauto using quiet_backend|].
        apply in_app_or in H as [H|H]; [eauto|].
        exfalso; eauto using quiet_backend.
      - rewrite !List.filter_app, !length_app.
        rewrite (quiet_no_increment before Q), (quiet_no_increment tail T).
        cbn. lia. }
    destruct (fst d) as [r|e]; cbn [snd].
    + specialize (G [] (List.Forall_nil _)). now rewrite !app_nil_r in G.
    + rewrite <- app_assoc. apply G. repeat constructor.
Qed.

(** C4.  The backend is fixed when the module is loaded: Bedrock exactly
    when the four variables are all present in the environment of that
    moment, Anthropic otherwise; and whatever the environment is when a
    request is handled, a backend call of that run goes to the backend
    fixed at load time. *)
Theorem backend_selected_at_init (env0 : Env) :
  (selected (init env0) = RemoteManagedRuntime <->
     present env0 "AWS_ACCESS_KEY_ID" /\ present env0 "AWS_SECRET_ACCESS_KEY"
     /\ present env0 "AWS_REGION" /\ present env0 "AWS_ARN")
  /\ (selected (init env0) = DirectProviderAPI <->
        ~ (present env0 "AWS_ACCESS_KEY_ID" /\ present env0 "AWS_SECRET_ACCESS_KEY"
           /\ present env0 "AWS_REGION" /\ present env0 "AWS_ARN"))
  /\ forall (env : Env) (w : World) (ev : Event) (b : Backend),
       In ev (snd (run_POST (init env0) env w)) ->
       backend_of ev = Some b ->
       b = selected (init env0).
Proof.
  pose proof (useBedrockClient_init env0) as U.
  rewrite selected_init.
  split; [|split].
  - rewrite <- U. destruct (useBedrockClient (init env0)); split; congruence.
  - rewrite <- U. destruct (useBedrockClient (init env0)); split; congruence.
  - intros env w ev b H E. rewrite <- selected_init.
    exact (proj1 (POST_events (init env0) env w) ev b H E).
Qed.

(** C1.  When the usage record that was fetched counts at least as many
    generations as the limit of the tier settings resolved for it (the own
    entry of the tier table, or the [FREE] entry; a member inherited from
    [Object.prototype] has no limit), the handler answers 429 with a text
    that names the record's tier ([FREE] when the record has none), and the
    run has called neither a backend nor the increment endpoint. *)
Theorem quota_exceeded_429 (m : ModuleState) (env : Env) (w : World)
        (user : User) (resetResponse dbUser : FetchResponse) (userData : UserData)
        (tierSettings : TierSettings) (count limit : Z) :
  w_currentUser w = Ok (Some user) ->
  w_checkReset w = Ok resetResponse ->
  w_dbUser w = Ok dbUser ->
  w_dbUser_json w = Ok userData ->
  tier_of userData = Some tierSettings ->
  userData_generations userData = Some count ->
  generations tierSettings = Some limit ->
  limit <= count ->
  status (fst (run_POST m env w)) = 429
  /\ body (fst (run_POST m env w))
     = Text ("AI generation limit reached for your "
               ++ Js.or (tier userData) "FREE" ++ " tier")
  /\ Forall (fun ev => is_backend_call ev = false /\ is_increment ev = false)
            (snd (run_POST m env w)).
Proof.
  intros H1 H2 H3 H4 H5 H6 H7 H8. unfold POST.
  rewrite (POST_try_to_gate m env w user resetResponse dbUser userData tierSettings)
    by assumption.
  assert (L : limit_reached userData tierSettings = true).
  { unfold limit_reached. rewrite H6, H7. now apply Z.leb_le. }
  rewrite L. cbn [fst snd status body text_response].
  split; [reflexivity|]. split; [reflexivity|].
  destruct (ok resetResponse); repeat constructor.
Qed.

Lemma checkReset_not_ok_response m env w :
  fst (run_POST m env (with_checkReset w (Ok {| ok := false |})))
  = fst (run_POST m env (with_checkReset w (Ok {| ok := true |}))).
Proof.
  unfold POST, POST_try, bind, await, resolve, ret, throw, emit.
  cbn [with_checkReset w_currentUser w_checkReset w_dbUser w_dbUser_json
       w_request_json ok negb].
  destruct (w_currentUser w) as [[user|]|e]; cbn [app fst]; try reflexivity.
  destruct (w_dbUser w) as [du|e]; cbn [app fst]; try reflexivity.
  destruct (w_dbUser_json w) as [ud|e]; cbn [app fst]; try reflexivity.
  destruct (tier_of ud) as [ts|]; cbn [app fst]; try reflexivity.
  destruct (limit_reached ud ts); cbn [app fst]; try reflexivity.
  destruct (w_request_json w) as [req|e]; cbn [app fst]; try reflexivity.
  destruct (system_message req) as [sm|e]; cbn [app fst]; try reflexivity.
  match goal with
  | |- context [dispatch m env ?w1 user ts req sm ?t1] =>
      rewrite (dispatch_from m env w1 user ts req sm t1)
  end.
  match goal with
  | |- _ = fst (match dispatch m env ?w2 user ts req sm ?t2 with _ => _ end) =>
      rewrite (dispatch_from m env w2 user ts req sm t2)
  end.
  change (dispatch m env (with_checkReset w (Ok {| ok := false |})) user ts req sm [])
    with (dispatch m env w user ts req sm []).
  change (dispatch m env (with_checkReset w (Ok {| ok := true |})) user ts req sm [])
    with (dispatch m env w user ts req sm []).
  destruct (fst (dispatch m env w user ts req sm [])); reflexivity.
Qed.

Lemma checkReset_not_ok_logged m env w user :
  w_currentUser w = Ok (Some user) ->
  In (ConsoleError "Failed to check usage reset" None)
     (snd (run_POST m env (with_checkReset w (Ok {| ok := false |})))).
Proof.
  intros H.
  unfold POST, POST_try, bind, await, resolve, ret, throw, emit.
  cbn [with_checkReset w_currentUser w_checkReset w_dbUser w_dbUser_json
       w_request_json ok negb].
  rewrite H. cbn [app].
  destruct (w_dbUser w) as [du|e]; cbn [app snd In]; [|tauto].
  destruct (w_dbUser_json w) as [ud|e]; cbn [app snd In]; [|tauto].
  destruct (tier_of ud) as [ts|]; cbn [app snd In]; [|tauto].
  destruct (limit_reached ud ts); cbn [app snd In]; [tauto|].
  destruct (w_request_json w) as [req|e]; cbn [app snd In]; [|tauto].
  destruct (system_message req) as [sm|e]; cbn [app snd In]; [|tauto].
  rewrite dispatch_from.
  destruct (fst (dispatch _ _ _ _ _ _ _ _)); cbn [app snd In];
    rewrite ?in_app_iff; cbn [In]; tauto.
Qed.

(** The handler never reads the reply of the increment call. *)
Lemma increment_not_ok_ignored m env w :
  run_POST m env (with_increment w (Ok {| ok := false |}))
  = run_POST m env (with_increment w (Ok {| ok := true |})).
Proof. reflexivity. Qed.

Lemma checkReset_rejected m env w user e :
  w_currentUser w = Ok (Some user) ->
  fst (run_POST m env (with_checkReset w (Throw e))) = text_response (error_text e) 500.
Proof.
  intros H. unfold POST, POST_try, bind, await, resolve, ret, throw, emit.
  cbn [with_checkReset w_currentUser w_checkReset]. now rewrite H.
Qed.

Lemma quiet_not_increment evs :
  Forall quiet evs -> ~ Exists (fun ev => is_increment ev = true) evs.
Proof.
  intros F H. apply List.Exists_exists in H as [ev [H I]].
  rewrite List.Forall_forall in F. destruct (F ev H). congruence.
Qed.

Lemma increment_rejected m env w e :
  let run := run_POST m env (with_increment w (Throw e)) in
  Exists (fun ev => is_increment ev = true) (snd run) ->
  fst run = text_response (error_text e) 500.
Proof.
  unfold POST.
  destruct (POST_try_cases m env (with_increment w (Throw e)))
    as [(r & evs & -> & Q & _)|(user & ts & req & sm & before & -> & Q)].
  - intros H. exfalso.
    destruct r; cbn [snd] in H.
    + now apply quiet_not_increment in H.
    + apply List.Exists_app in H as [H|H]; [now apply quiet_not_increment in H|].
      apply List.Exists_cons in H as [H|H]; [discriminate H | inversion H].
  - rewrite dispatch_from.
    pose proof (dispatch_increment_rejected m env w user ts req sm e) as D.
    cbv zeta in D.
    set (d := dispatch m env (with_increment w (Throw e)) user ts req sm []) in *.
    intros H.
    assert (I : Exists (fun ev => is_increment ev = true) (snd d)).
    { destruct (fst d); cbn [snd] in H.
      - apply List.Exists_app in H as [H|H]; [now apply quiet_not_increment in H | exact H].
      - apply List.Exists_app in H as [H|H].
        + apply List.Exists_app in H as [H|H]; [now apply quiet_not_increment in H | exact H].
        + apply List.Exists_cons in H as [H|H]; [discriminate H | inversion H]. }
    rewrite (D I). reflexivity.
Qed.

(** C3, as amended.  A check-and-reset reply that is not ok is logged and
    the response is the one an ok reply leads to; an increment reply that
    is not ok is ignored, the whole run being the one an ok reply leads
    to; no run calls the increment endpoint more than once; and when the
    fetch of either call is rejected the exception is caught at the end of
    the handler, which answers 500 with the error's text. *)
Theorem collaborator_failures (m : ModuleState) (env : Env) (w : World) :
  fst (run_POST m env (with_checkReset w (Ok {| ok := false |})))
  = fst (run_POST m env (with_checkReset w (Ok {| ok := true |})))
  /\ (forall user,
        w_currentUser w = Ok (Some user) ->
        In (ConsoleError "Failed to check usage reset" None)
           (snd (run_POST m env (with_checkReset w (Ok {| ok := false |})))))
  /\ run_POST m env (with_increment w (Ok {| ok := false |}))
     = run_POST m env (with_increment w (Ok {| ok := true |}))
  /\ (length (List.filter is_increment (snd (run_POST m env w))) <= 1)%nat
  /\ (forall user e,
        w_currentUser w = Ok (Some user) ->
        fst (run_POST m env (with_checkReset w (Throw e)))
        = text_response (error_text e) 500)
  /\ (forall e,
        Exists (fun ev => is_increment ev = true)
               (snd (run_POST m env (with_increment w (Throw e)))) ->
        fst (run_POST m env (with_increment w (Throw e)))
        = text_response (error_text e) 500).
Proof.
  split; [apply checkReset_not_ok_response|].
  split; [apply checkReset_not_ok_logged|].
  split; [apply increment_not_ok_ignored|].
  split; [apply POST_events|].
  split; [intros user e; apply checkReset_rejected|].
  intros e. apply increment_rejected.
Qed.

Lemma templateConfig_of_unresolved (req : RequestBody) :
  template_of req = unresolved Json <->
  templateConfigs !! Js.interp (templateType req) = None
  /\ Js.inherited (Js.interp (templateType req)) = false.
Proof.
  unfold templateConfig_of.
  destruct (templateConfigs !! Js.interp (templateType req));
    [|destruct (Js.inherited (Js.interp (templateType req)))];
    split; try discriminate; try tauto; intros [? ?]; discriminate.
Qed.




End RouteFacts.


(** ** The properties at sample inputs *)

Lemma quota_exceeded_429_witness :
  let w := Sample.world (Some "PRO") 500 (Sample.request false []) in
  status (fst (Sample.POST (init Sample.env) Sample.env w)) = 429
  /\ body (fst (Sample.POST (init Sample.env) Sample.env w))
     = Text "AI generation limit reached for your PRO tier"
  /\ Forall (fun ev => is_backend_call ev = false /\ is_increment ev = false)
            (snd (Sample.POST (init Sample.env) Sample.env w)).
Proof.
  intros w.
  exact (quota_exceeded_429 [] [] length_compare Sample.TIERS unit Sample.JSON_stringify
           Sample.templateConfigs (init Sample.env) Sample.env w
           {| id := "u1" |} {| ok := true |} {| ok := true |}
           {| tier := Some "PRO"; userData_generations := Some 500 |}
           {| generations := Some 500; maxTokens := Some 2048;
              anthropicModel := Some "claude-3-5-sonnet" |}
           500 500 eq_refl eq_refl eq_refl eq_refl eq_refl eq_refl eq_refl
           ltac:(lia)).
Defined.




(** An increment reply that is not ok is not logged; a rejected increment
    fetch turns the streamed 200 response into a 500 response; a rejected
    check-and-reset fetch ends the run before the usage record is fetched. *)
Lemma rejected_fetch_is_fatal :
  let w := Sample.world None 0 (Sample.request false []) in
  status (fst (Sample.POST (init Sample.env) Sample.env w)) = 200
  /\ List.filter is_console_error
       (snd (Sample.POST (init Sample.env) Sample.env
               (with_increment w (Ok {| ok := false |})))) = []
  /\ status (fst (Sample.POST (init Sample.env) Sample.env
                    (with_increment w (Throw (ErrorObj "fetch failed"))))) = 500
  /\ Sample.POST (init Sample.env) Sample.env
       (with_checkReset w (Throw (ErrorObj "fetch failed")))
     = (text_response "fetch failed" 500,
        [CurrentUser;
         Fetch check_reset "POST" "http://server/api/user/check-reset" (Some "u1");
         ConsoleError "AI generation error:" (Some (ErrorObj "fetch failed"))]).
Proof. intros w. repeat split. Qed.

(** * Further properties *)

(** ** Sorting and the formatter *)

Section SortMore.
Context {A : Type} (cmp : A -> A -> Z).

Lemma insert_below x l :
  Forall (Js.cmp_le cmp x) l -> Js.insert cmp x l = x :: l.
Proof.
  intros F. destruct l as [|y l]; [reflexivity|].
  inversion F as [|? ? Hy _]; subst. cbn [Js.insert].
  unfold Js.cmp_le in Hy. destruct (Z.ltb_spec 0 (cmp x y)); [lia | reflexivity].
Qed.

Lemma sorted_sort_id l :
  StronglySorted (Js.cmp_le cmp) l -> Js.sort cmp l = l.
Proof.
  induction 1 as [|x l S IH F]; [reflexivity|].
  cbn [Js.sort]. rewrite IH. now apply insert_below.
Qed.

Hypothesis C : Js.consistent cmp.

Lemma insert_filter (p : A -> bool) x l :
  StronglySorted (Js.cmp_le cmp) l ->
  List.filter p (Js.insert cmp x l)
  = if p x then Js.insert cmp x (List.filter p l) else List.filter p l.
Proof.
  induction 1 as [|y l S IH F].
  - cbn. destruct (p x); reflexivity.
  - cbn [Js.insert]. destruct (Z.ltb_spec 0 (cmp x y)) as [G|L].
    + cbn [List.filter]. rewrite IH.
      destruct (p x), (p y); cbn [Js.insert]; try reflexivity.
      destruct (Z.ltb_spec 0 (cmp x y)); [reflexivity | lia].
    + cbn [List.filter]. destruct (p x) eqn:Px; [|reflexivity].
      destruct (p y) eqn:Py.
      * cbn [Js.insert]. destruct (Z.ltb_spec 0 (cmp x y)); [lia | reflexivity].
      * symmetry. apply insert_below.
        apply List.Forall_forall. intros z Hz. apply filter_In in Hz as [Hz _].
        rewrite List.Forall_forall in F.
        apply (Js.cmp_trans cmp C _ y); [exact L | now apply F].
Qed.

Lemma sort_filter (p : A -> bool) l :
  List.filter p (Js.sort cmp l) = Js.sort cmp (List.filter p l).
Proof.
  induction l as [|x l IH]; [reflexivity|].
  cbn [Js.sort List.filter]. rewrite insert_filter by now apply sort_sorted.
  rewrite IH. destruct (p x); reflexivity.
Qed.

(** Two sorted arrangements of the same elements are equal when no two
    distinct elements compare as equal. *)
Lemma sorted_perm_eq l l' :
  (forall a b, In a l -> In b l -> cmp a b = 0 -> a = b) ->
  StronglySorted (Js.cmp_le cmp) l ->
  StronglySorted (Js.cmp_le cmp) l' ->
  Permutation l l' ->
  l = l'.
Proof.
  intros T S. revert l'. induction S as [|x l S IH F]; intros l' S' P.
  - apply Permutation_nil in P. now subst.
  - destruct S' as [|x' l' S' F'].
    + apply Permutation_sym, Permutation_nil in P. discriminate P.
    + assert (E : x = x').
      { assert (Hx' : In x' (x :: l))
          by (eapply Permutation_in; [apply Permutation_sym, P | now left]).
        assert (Hx : In x (x' :: l'))
          by (eapply Permutation_in; [apply P | now left]).
        destruct Hx' as [Hx'|Hx']; [exact Hx'|].
        destruct Hx as [Hx|Hx]; [now symmetry|].
        rewrite List.Forall_forall in F, F'.
        pose proof (F x' Hx') as L1. pose proof (F' x Hx) as L2.
        unfold Js.cmp_le in L1, L2.
        apply T; [now left | now right |].
        pose proof (Js.cmp_antisym cmp C x x'). pose proof (Js.cmp_antisym cmp C x' x).
        lia. }
      subst x'. f_equal. apply IH; [|exact S'|].
      * intros a b Ha Hb. apply T; now right.
      * eapply Permutation_cons_inv, P.
Qed.
End SortMore.

Lemma append_nil_r (s : string) : s ++ "" = s.
Proof. induction s as [|c s IH]; [reflexivity|]. now rewrite append_cons, IH. Qed.

Lemma filter_idem {A} (p : A -> bool) (l : list A) :
  List.filter p (List.filter p l) = List.filter p l.
Proof.
  induction l as [|x l IH]; [reflexivity|]. cbn [List.filter].
  destruct (p x) eqn:E; [|exact IH]. cbn [List.filter]. now rewrite E, IH.
Qed.

Lemma join_nonempty (sep x : string) (xs : list string) :
  x <> "" -> Js.join sep (x :: xs) <> "".
Proof.
  intros N. unfold Js.join. cbn [String.concat].
  destruct xs; [exact N|]. destruct x; [congruence | discriminate].
Qed.

Section FormatterMore.

Variable ignoredFiles : list string.
Variable ignoredFolders : list string.
Variable localeCompare : string -> string -> Z.

Local Abbreviation fmt := (formatFileStructure ignoredFiles ignoredFolders localeCompare).
Local Abbreviation line_of := (render_line ignoredFiles ignoredFolders localeCompare).
Local Abbreviation kept := (retained ignoredFiles ignoredFolders).
Local Abbreviation shown := (entries ignoredFiles ignoredFolders localeCompare).
Local Abbreviation sorted := (sortedItems localeCompare).
Local Abbreviation cmpI := (compareItems localeCompare).

Lemma render_line_nonempty prefix item : line_of prefix item <> "".
Proof.
  destruct item; cbn [render_line]; apply append_nonempty, glyph_branch_nonempty.
Qed.

(** X1.  The text for an array is empty exactly when none of its items is
    retained; in particular for the empty array. *)
Theorem formatFileStructure_empty_iff (items : list Node) (prefix : string) :
  fmt (Some items) prefix = "" <-> Forall (fun item => kept item = false) items.
Proof.
  rewrite formatFileStructure_entries. split.
  - intros H. apply List.Forall_forall. intros item Hin.
    destruct (kept item) eqn:K; [|reflexivity]. exfalso.
    assert (S : In item (shown items)) by (apply entries_In; auto).
    destruct (shown items) as [|x xs]; [contradiction|].
    cbn [List.map] in H. revert H. apply join_nonempty, render_line_nonempty.
  - intros F. assert (E : shown items = []).
    { destruct (shown items) as [|x xs] eqn:E; [reflexivity|]. exfalso.
      assert (S : In x (shown items)) by (rewrite E; now left).
      apply entries_In in S as [S K]. rewrite List.Forall_forall in F.
      rewrite (F x S) in K. discriminate K. }
    now rewrite E.
Qed.

(** X2.  With a consistent [localeCompare], the text is the same when the
    items that are not retained are removed from the array beforehand, and
    the same when the array is handed over already sorted. *)
Theorem formatFileStructure_presorted_prefiltered (items : list Node) (prefix : string) :
  Js.consistent localeCompare ->
  fmt (Some (List.filter kept items)) prefix = fmt (Some items) prefix
  /\ fmt (Some (sorted items)) prefix = fmt (Some items) prefix.
Proof.
  intros C. apply compareItems_consistent in C. split.
  - rewrite !formatFileStructure_entries. unfold entries, sortedItems.
    rewrite !(sort_filter cmpI C), filter_idem. reflexivity.
  - rewrite !formatFileStructure_Some. unfold sortedItems.
    rewrite (sorted_sort_id cmpI) by now apply sort_sorted. reflexivity.
Qed.

(** X3.  With a consistent [localeCompare] and an array in which no two
    distinct items compare as equal, the text does not depend on the order
    in which the items are given. *)
Theorem formatFileStructure_order_irrelevant (items items' : list Node) (prefix : string) :
  Js.consistent localeCompare ->
  (forall a b, In a items -> In b items -> cmpI a b = 0 -> a = b) ->
  Permutation items items' ->
  fmt (Some items) prefix = fmt (Some items') prefix.
Proof.
  intros C T P. apply compareItems_consistent in C.
  rewrite !formatFileStructure_Some. do 3 f_equal. unfold sortedItems.
  apply (sorted_perm_eq cmpI C).
  - intros a b Ha Hb. apply T; now apply (sort_In cmpI).
  - now apply sort_sorted.
  - now apply sort_sorted.
  - now rewrite !sort_perm.
Qed.

(** X4.  An ignore pattern that is empty, or that is the lone wildcard [*],
    makes every file name match: no file is retained. *)
Theorem bare_wildcard_drops_every_file (name : string) :
  In "*" ignoredFiles \/ In "" ignoredFiles ->
  retained ignoredFiles ignoredFolders (TFile name) = false.
Proof.
  intros H. cbn [retained]. apply negb_false_iff, file_ignored_spec.
  destruct H as [H|H]; eexists; (split; [exact H|]); right; exists name;
    cbn [Js.replace_star Ascii.eqb]; now rewrite append_nil_r.
Qed.

End FormatterMore.

Lemma formatFileStructure_empty_iff_witness :
  formatFileStructure ["*.log"] ["node_modules"] length_compare
    (Some [TFile "a.log"; TFolder "node_modules" (Some [TFile "index.js"])]) "" = "".
Proof.
  apply (proj2 (formatFileStructure_empty_iff ["*.log"] ["node_modules"] length_compare
                  [TFile "a.log"; TFolder "node_modules" (Some [TFile "index.js"])] "")).
  repeat constructor.
Defined.

Lemma formatFileStructure_presorted_prefiltered_witness :
  let items := [TFile "b.log"; TFile "a.ts"; TFolder "src" None] in
  formatFileStructure ["*.log"] [] length_compare
    (Some (List.filter (retained ["*.log"] []) items)) ""
  = formatFileStructure ["*.log"] [] length_compare (Some items) "".
Proof.
  intros items.
  apply (formatFileStructure_presorted_prefiltered ["*.log"] [] length_compare items "").
  split; unfold length_compare; intros; lia.
Defined.

Lemma formatFileStructure_order_irrelevant_witness :
  formatFileStructure [] [] length_compare (Some [TFile "a"; TFile "bb"; TFolder "src" None]) ""
  = formatFileStructure [] [] length_compare (Some [TFolder "src" None; TFile "bb"; TFile "a"]) "".
Proof.
  apply (formatFileStructure_order_irrelevant [] [] length_compare).
  - split; unfold length_compare; intros; lia.
  - intros a b Ha Hb.
    cbn [In] in Ha, Hb.
    destruct Ha as [<-|[<-|[<-|[]]]], Hb as [<-|[<-|[<-|[]]]];
      intros E; try reflexivity; vm_compute in E; discriminate E.
  - apply perm_trans with [TFile "a"; TFolder "src" None; TFile "bb"].
    + apply perm_skip, perm_swap.
    + apply perm_trans with [TFolder "src" None; TFile "a"; TFile "bb"].
      * apply perm_swap.
      * apply perm_skip, perm_swap.
Defined.

Lemma bare_wildcard_drops_every_file_witness :
  retained ["*"] [] (TFile "index.ts") = false.
Proof.
  apply (bare_wildcard_drops_every_file ["*"] [] "index.ts"). left. now left.
Defined.

(** ** The stream loops, further *)

(** X5.  Each stream is ended exactly once, by the last call on its
    controller: [close] when the backend stream ends, [error] with the
    backend's error when it fails, after the same [enqueue] calls; a failure
    is logged once, after everything else.  A missing Bedrock body gives
    one [close] and nothing else, and one log entry. *)
Theorem stream_ended_once :
  (forall (l : list BedrockItem) (e : Thrown),
      let finished := bedrock_start (Some {| chunks := l; failure := None |}) in
      let failed := bedrock_start (Some {| chunks := l; failure := Some e |}) in
      (exists fragments,
          calls finished = (List.map Enqueue fragments ++ [Close])%list
          /\ calls failed = (List.map Enqueue fragments ++ [Error e])%list)
      /\ state finished = Closed
      /\ state failed = Errored e
      /\ console failed = (console finished ++ [("Bedrock streaming error:", Some e)])%list)
  /\ bedrock_start None
     = {| calls := [Close];
          console := [("No response body received from Bedrock", None)] |}
  /\ (forall (l : list AnthropicEvent) (e : Thrown),
        let finished := anthropic_start {| chunks := l; failure := None |} in
        let failed := anthropic_start {| chunks := l; failure := Some e |} in
        (exists fragments,
            calls finished = (List.map Enqueue fragments ++ [Close])%list
            /\ calls failed = (List.map Enqueue fragments ++ [Error e])%list)
        /\ state finished = Closed
        /\ console finished = []
        /\ state failed = Errored e
        /\ console failed = [("Anthropic streaming error:", Some e)]).
Proof.
  split; [|split; [reflexivity|]].
  - intros l e. cbv zeta. rewrite !bedrock_start_calls. cbn [chunks failure calls console].
    rewrite !state_fragments, app_nil_r. repeat split.
    eexists. split; reflexivity.
  - intros l e. cbv zeta. rewrite !anthropic_start_calls. cbn [chunks failure calls console].
    rewrite !state_fragments. repeat split.
    eexists. split; reflexivity.
Qed.

Lemma bedrock_log_unparsable (chunk : BedrockItem) :
  length (bedrock_log chunk) = if unparsable chunk then 1%nat else 0%nat.
Proof.
  unfold bedrock_log, unparsable.
  destruct (chunk_bytes chunk) as [[[|]|]|]; reflexivity.
Qed.

(** X6.  The Bedrock loop keeps no state from one chunk to the next: the
    fragments enqueued for a sequence of chunks are those for its first
    part followed by those for the rest.  When the backend stream ends the
    loop has logged one entry for each chunk that failed to parse and
    nothing else. *)
Theorem bedrock_loop_chunkwise (l1 l2 : list BedrockItem) :
  let run l := bedrock_start (Some {| chunks := l; failure := None |}) in
  enqueued (run (l1 ++ l2)%list) = (enqueued (run l1) ++ enqueued (run l2))%list
  /\ length (console (run l1)) = length (List.filter unparsable l1).
Proof.
  intros run. subst run. cbv beta. rewrite !bedrock_start_enqueued. cbn [chunks].
  split.
  - now rewrite List.map_app, payloads_app.
  - rewrite bedrock_start_calls. cbn [console chunks failure]. rewrite app_nil_r.
    induction l1 as [|chunk l IH]; [reflexivity|].
    cbn [flat_map List.filter]. rewrite length_app, IH, bedrock_log_unparsable.
    destruct (unparsable chunk); reflexivity.
Qed.

(** ** The handler, further *)

Section RouteMore.

Local Open Scope route_scope.

Variable ignoredFiles : list string.
Variable ignoredFolders : list string.
Variable localeCompare : string -> string -> Z.
Variable TIERS : gmap string TierSettings.
Variable Json : Type.
Variable JSON_stringify : Json -> string.
Variable templateConfigs : gmap string (TemplateConfig Json).

Local Abbreviation run_POST :=
  (POST ignoredFiles ignoredFolders localeCompare TIERS Json JSON_stringify
        templateConfigs).
Local Abbreviation system_message :=
  (systemMessage ignoredFiles ignoredFolders localeCompare Json JSON_stringify
                 templateConfigs).
Local Abbreviation tier_of := (tierSettings_of TIERS).

(** One step of the case analysis that follows a run of the handler through
    the answers of the world. *)
Ltac next_answer :=
  lazymatch goal with
  | |- context [w_currentUser ?w] => destruct (w_currentUser w) as [[?user|]|?e] eqn:?
  | |- context [w_checkReset ?w] => destruct (w_checkReset w) as [[[|]]|?e] eqn:?
  | |- context [w_dbUser ?w] => destruct (w_dbUser w) as [?du|?e] eqn:?
  | |- context [w_dbUser_json ?w] => destruct (w_dbUser_json w) as [?ud|?e] eqn:?
  | |- context [tierSettings_of ?T ?u] => destruct (tierSettings_of T u) as [?ts|] eqn:?
  | |- context [limit_reached ?u ?t] => destruct (limit_reached u t) eqn:?
  | |- context [w_request_json ?w] => destruct (w_request_json w) as [?req|?e] eqn:?
  | |- context [systemMessage ?a ?b ?c ?d ?f ?g ?r] =>
      destruct (systemMessage a b c d f g r) as [?sm|?e] eqn:?
  | |- context [useBedrockClient ?m && ?x] => destruct (useBedrockClient m && x) eqn:?
  | |- context [map_roles ?l] => destruct (map_roles l) as [?mapped|?e] eqn:?
  | |- context [w_bedrockSend ?w] => destruct (w_bedrockSend w) as [?b|?e] eqn:?
  | |- context [w_anthropicCreate ?w] => destruct (w_anthropicCreate w) as [?a|?e] eqn:?
  | |- context [w_increment ?w] => destruct (w_increment w) as [?r|?e] eqn:?
  end;
  cbn [app fst snd ok negb].

Ltac follow_run :=
  unfold POST, POST_try, dispatch, selected, bind, await, resolve, ret, throw, emit;
  repeat next_answer.

(** X7.  The calls of a run are made in one fixed order, each at most once:
    the user is resolved first, then check-and-reset, then the user fetch,
    then the request body is read, then a backend is called, then the
    increment; the catch-all log entry comes last. *)
Theorem calls_in_fixed_order (m : ModuleState) (env : Env) (w : World) :
  StronglySorted lt (List.map phase (snd (run_POST m env w))).
Proof.
  follow_run; cbn [List.map phase String.eqb Ascii.eqb Bool.eqb];
    repeat (constructor; [|repeat (constructor; try lia)]); constructor.
Qed.

(** X8.  Without a user nothing else is done: when [currentUser] resolves
    to no user the answer is 401 and no call follows; when it rejects, the
    answer is 500 with the error's text, and only the catch-all log entry
    follows. *)
Theorem unauthenticated_stops_at_once (m : ModuleState) (env : Env) (w : World) :
  (w_currentUser w = Ok None ->
     run_POST m env w = (text_response "Unauthorized" 401, [CurrentUser]))
  /\ (forall e,
        w_currentUser w = Throw e ->
        run_POST m env w
        = (text_response (error_text e) 500,
           [CurrentUser; ConsoleError "AI generation error:" (Some e)])).
Proof.
  unfold POST, POST_try, bind, await. split; [intros ->|intros e ->]; reflexivity.
Qed.

(** X9.  A run answered with status 200 has called a backend exactly once
    and the increment endpoint exactly once, the increment being the last
    event and the backend call the one before it. *)
Theorem success_run_shape (m : ModuleState) (env : Env) (w : World) :
  status (fst (run_POST m env w)) = 200 ->
  length (List.filter is_backend_call (snd (run_POST m env w))) = 1%nat
  /\ length (List.filter is_increment (snd (run_POST m env w))) = 1%nat
  /\ exists inc call earlier,
       rev (snd (run_POST m env w)) = inc :: call :: earlier
       /\ is_increment inc = true
       /\ is_backend_call call = true.
Proof.
  follow_run; cbn [status text_response]; intros H; try discriminate H;
    (split; [reflexivity|]); (split; [reflexivity|]);
    cbn [rev app]; eexists _, _, _; repeat split.
Qed.

(** X10.  When the call of the backend fixed at load time is rejected, the
    increment endpoint is not called and the answer is not 200. *)
Theorem backend_rejection_no_increment (m : ModuleState) (env : Env) (w : World) :
  (selected m = RemoteManagedRuntime -> exists e, w_bedrockSend w = Throw e) ->
  (selected m = DirectProviderAPI -> exists e, w_anthropicCreate w = Throw e) ->
  List.filter is_increment (snd (run_POST m env w)) = []
  /\ status (fst (run_POST m env w)) <> 200.
Proof.
  follow_run; cbn [status text_response]; intros H1 H2;
    try (split; [reflexivity | discriminate]);
    exfalso;
    try (destruct (H1 eq_refl) as [? H]; discriminate H);
    try (destruct (H2 eq_refl) as [? H]; discriminate H).
Qed.

(** X11.  A usage record whose tier name is neither a key of the tier table
    nor a name that every object inherits is held to the limit of the
    [FREE] entry, while the 429 text still shows the name of the record. *)
Theorem unknown_tier_held_to_free_limit (m : ModuleState) (env : Env) (w : World)
        (user : User) (resetResponse dbUser : FetchResponse) (userData : UserData)
        (free : TierSettings) (count limit : Z) :
  w_currentUser w = Ok (Some user) ->
  w_checkReset w = Ok resetResponse ->
  w_dbUser w = Ok dbUser ->
  w_dbUser_json w = Ok userData ->
  TIERS !! Js.interp (tier userData) = None ->
  Js.inherited (Js.interp (tier userData)) = false ->
  TIERS !! "FREE" = Some free ->
  userData_generations userData = Some count ->
  generations free = Some limit ->
  limit <= count ->
  fst (run_POST m env w)
  = text_response
      ("AI generation limit reached for your " ++ Js.or (tier userData) "FREE" ++ " tier")
      429.
Proof.
  intros H1 H2 H3 H4 H5 I H6 H7 L H8.
  unfold POST, POST_try, bind, await, resolve, ret, throw, emit.
  rewrite H1, H2, H3, H4. unfold tierSettings_of, limit_reached.
  rewrite H5, I, H6, H7, L. apply Z.leb_le in H8. rewrite H8.
  destruct (negb (ok resetResponse)); reflexivity.
Qed.

(** X12.  When the tier table has no [FREE] entry and the record's tier
    name is neither a key of the table nor a name that every object
    inherits, reading the limit throws: the answer is 500, and neither the
    request body is read nor a backend or the increment endpoint called. *)
Theorem missing_tier_entry_500 (m : ModuleState) (env : Env) (w : World)
        (user : User) (resetResponse dbUser : FetchResponse) (userData : UserData) :
  w_currentUser w = Ok (Some user) ->
  w_checkReset w = Ok resetResponse ->
  w_dbUser w = Ok dbUser ->
  w_dbUser_json w = Ok userData ->
  TIERS !! Js.interp (tier userData) = None ->
  Js.inherited (Js.interp (tier userData)) = false ->
  TIERS !! "FREE" = None ->
  fst (run_POST m env w)
  = text_response "Cannot read properties of undefined (reading 'generations')" 500
  /\ Forall (fun ev => ev <> RequestJson /\ is_backend_call ev = false
                       /\ is_increment ev = false)
            (snd (run_POST m env w)).
Proof.
  intros H1 H2 H3 H4 H5 I H6.
  unfold POST, POST_try, bind, await, resolve, ret, throw, emit.
  rewrite H1, H2, H3, H4. unfold tierSettings_of. rewrite H5, I, H6.
  destruct (negb (ok resetResponse)); cbn [fst snd app];
    (split; [reflexivity|]); repeat constructor; discriminate.
Qed.

(** X13.  A usage record without a generation count is never stopped by the
    quota check: the run goes on to read the request body and is not
    answered with 429. *)
Theorem missing_count_passes_quota_check (m : ModuleState) (env : Env) (w : World)
        (user : User) (resetResponse dbUser : FetchResponse) (userData : UserData)
        (tierSettings : TierSettings) :
  w_currentUser w = Ok (Some user) ->
  w_checkReset w = Ok resetResponse ->
  w_dbUser w = Ok dbUser ->
  w_dbUser_json w = Ok userData ->
  tier_of userData = Some tierSettings ->
  userData_generations userData = None ->
  In RequestJson (snd (run_POST m env w))
  /\ status (fst (run_POST m env w)) <> 429.
Proof.
  intros H1 H2 H3 H4 H5 H6.
  assert (L : limit_reached userData tierSettings = false)
    by (unfold limit_reached; now rewrite H6).
  revert H1 H2 H3 H4 H5 L. follow_run; cbn [status text_response];
    intros H1 H2 H3 H4 H5 L; try discriminate; try congruence;
    (split; [cbn [In]; tauto | discriminate]).
Qed.

(** X14.  What a backend is sent.  On the Bedrock path the system message
    is the first turn, with role [user], followed by the mapped turns of the
    request, and the model id is [AWS_ARN] as the environment has it when
    the request is handled; on the Anthropic path the system message is the
    [system] field and the turns are the mapped turns alone.  Both carry the
    token limit of the tier settings resolved for the usage record. *)
Theorem backend_request_shape (m : ModuleState) (env : Env) (w : World) :
  Forall (fun ev =>
            match ev with
            | BedrockSend input =>
                exists userData tierSettings req sm mapped,
                  w_dbUser_json w = Ok userData
                  /\ tier_of userData = Some tierSettings
                  /\ w_request_json w = Ok req
                  /\ system_message req = Ok sm
                  /\ map_roles (messages req) = Ok mapped
                  /\ modelId input = env !! "AWS_ARN"
                  /\ max_tokens (bedrock_body input) = maxTokens tierSettings
                  /\ bedrock_messages (bedrock_body input)
                     = {| role := Some "user"; content := Some sm |} :: mapped
            | AnthropicCreate params =>
                exists userData tierSettings req sm mapped,
                  w_dbUser_json w = Ok userData
                  /\ tier_of userData = Some tierSettings
                  /\ w_request_json w = Ok req
                  /\ system_message req = Ok sm
                  /\ map_roles (messages req) = Ok mapped
                  /\ model params = anthropicModel tierSettings
                  /\ anthropic_max_tokens params = maxTokens tierSettings
                  /\ system params = sm
                  /\ anthropic_messages params = mapped
                  /\ stream params = true
            | _ => True
            end)
         (snd (run_POST m env w)).
Proof.
  follow_run; repeat (constructor; [try exact I|]); try constructor;
    eexists _, _, _, _, _; repeat split; eassumption || reflexivity.
Qed.

Lemma map_roles_Ok (turns : list (option Message)) (mapped : list Message) :
  map_roles turns = Ok mapped ->
  Forall2 (fun source sent =>
             exists msg, source = Some msg
                         /\ content sent = content msg
                         /\ (role msg = Some "human" -> role sent = Some "user")
                         /\ (role msg <> Some "human" -> role sent = Some "assistant"))
          turns mapped.
Proof.
  revert mapped. induction turns as [|[msg|] l IH]; intros mapped H; cbn [map_roles] in H.
  - injection H as <-. constructor.
  - destruct (map_roles l) as [tl|]; [|discriminate H]. injection H as <-.
    constructor; [|now apply IH]. exists msg. cbn [role content].
    split; [reflexivity|]. split; [reflexivity|].
    unfold str_is. destruct (role msg) as [r|]; [|split; [discriminate | reflexivity]].
    destruct (String.eqb_spec r "human"); split; congruence.
  - discriminate H.
Qed.

(** X17.  The turns a backend is sent after the system message are the
    request's turns one for one and in order, each of them an object, with
    the content unchanged; a turn whose role is exactly [human] is sent
    with the role [user], every other turn with the role [assistant].  So a
    request with a [null] turn never reaches a backend. *)
Theorem mapped_roles (m : ModuleState) (env : Env) (w : World) :
  Forall (fun ev =>
            forall sent,
              match ev with
              | BedrockSend input =>
                  exists first, bedrock_messages (bedrock_body input) = first :: sent
              | AnthropicCreate params => anthropic_messages params = sent
              | _ => False
              end ->
              exists req,
                w_request_json w = Ok req
                /\ Forall2 (fun source turn =>
                              exists msg,
                                source = Some msg
                                /\ content turn = content msg
                                /\ (role msg = Some "human" -> role turn = Some "user")
                                /\ (role msg <> Some "human"
                                    -> role turn = Some "assistant"))
                           (messages req) sent)
         (snd (run_POST m env w)).
Proof.
  follow_run; repeat (constructor; [try (intros ? []; fail)|]); try constructor.
  all: cbn [bedrock_messages bedrock_body anthropic_messages]; intros sent H;
    eexists; (split; [reflexivity|]); apply map_roles_Ok;
    lazymatch type of H with
    | ex _ => destruct H as [? H]; injection H as _ <-
    | _ => subst sent
    end; assumption.
Qed.

(** X15.  Every answer is one of four kinds: a streamed 200 with the
    streaming headers; the text [Unauthorized] with 401, after the user
    lookup alone; a text with 429, the request body not having been read and
    no backend or increment called; or a text with 500 that is the text of a
    caught error, which the last event of the run logs. *)
Theorem response_classification (m : ModuleState) (env : Env) (w : World) :
  let response := fst (run_POST m env w) in
  let events := snd (run_POST m env w) in
  (status response = 200 /\ headers response = stream_headers
   /\ exists c, body response = ReadableStream c)
  \/ (response = text_response "Unauthorized" 401 /\ events = [CurrentUser])
  \/ (status response = 429 /\ headers response = []
      /\ (exists s, body response = Text s)
      /\ ~ In RequestJson events /\ Forall quiet events)
  \/ (exists e,
        response = text_response (error_text e) 500
        /\ List.last events CurrentUser = ConsoleError "AI generation error:" (Some e)).
Proof.
  cbv zeta. follow_run.
  all: try (left; repeat split; eexists; reflexivity).
  all: try (right; left; split; reflexivity).
  all: try (right; right; right; eexists; split; reflexivity).
  all: right; right; left; repeat split; eauto; try (repeat constructor).
  all: cbn [In]; intros H; repeat (destruct H as [H|H]; [discriminate H|]); exact H.
Qed.

(** X16.  A generation is counted when the backend call returns, whatever
    the stream then delivers: the events of the run and the status of the
    answer are the same for any two streams the backend may hand back, be it
    one that fails at once or, for Bedrock, an absent body. *)
Theorem counted_when_stream_opens (m : ModuleState) (env : Env) (w : World) :
  (forall b1 b2 : option (Stream BedrockItem),
      snd (run_POST m env (with_bedrockSend w (Ok b1)))
      = snd (run_POST m env (with_bedrockSend w (Ok b2)))
      /\ status (fst (run_POST m env (with_bedrockSend w (Ok b1))))
         = status (fst (run_POST m env (with_bedrockSend w (Ok b2)))))
  /\ (forall s1 s2 : Stream AnthropicEvent,
        snd (run_POST m env (with_anthropicCreate w (Ok s1)))
        = snd (run_POST m env (with_anthropicCreate w (Ok s2)))
        /\ status (fst (run_POST m env (with_anthropicCreate w (Ok s1))))
           = status (fst (run_POST m env (with_anthropicCreate w (Ok s2))))).
Proof.
  split; intros x1 x2;
    unfold POST, POST_try, dispatch, bind, await, resolve, ret, throw, emit;
    cbn [with_bedrockSend with_anthropicCreate w_currentUser w_checkReset w_dbUser
         w_dbUser_json w_request_json w_bedrockSend w_anthropicCreate w_increment];
    repeat next_answer; split; reflexivity.
Qed.

End RouteMore.

(** ** Role mapping, module initialisation, the deploy button *)

(** X18.  A Bedrock client exists exactly when the Bedrock backend was
    selected, and it then holds the region and the two keys as the
    environment has them, none of them empty: the default region
    [us-east-1] is never the one used for lack of a region. *)
Theorem bedrock_client_invariant (env : Env) :
  (is_Some (bedrockClient (init env)) <-> selected (init env) = RemoteManagedRuntime)
  /\ forall client,
       bedrockClient (init env) = Some client ->
       env !! "AWS_REGION" = Some (region client)
       /\ region client <> ""
       /\ accessKeyId client = env !! "AWS_ACCESS_KEY_ID"
       /\ present env "AWS_ACCESS_KEY_ID"
       /\ secretAccessKey client = env !! "AWS_SECRET_ACCESS_KEY"
       /\ present env "AWS_SECRET_ACCESS_KEY".
Proof.
  pose proof (useBedrockClient_init env) as U. rewrite selected_init.
  cbn [init bedrockClient useBedrockClient] in *.
  destruct (Js.truthy _) eqn:E.
  - split; [split; [reflexivity | eauto]|].
    intros client [= <-]. cbn [region accessKeyId secretAccessKey].
    destruct (proj1 U eq_refl) as (K & S & (v & R & N) & _).
    rewrite R. cbn [Js.or Js.truthy]. destruct v; [congruence|]. auto 10.
  - split; [split; [intros [c H]; discriminate H | discriminate]|].
    intros client H. discriminate H.
Qed.

(** X19.  The deploy button is a toggle.  After [n] clicks from the initial
    state it shows [Deployed] exactly when [n] is odd, every click has
    logged one line, and the lines alternate, beginning with the start of a
    deployment. *)
Theorem deploy_button_toggles (n : nat) :
  let (lines, final) := Deploy.clicks n Deploy.initial in
  final = Nat.odd n
  /\ Deploy.label (Deploy.DeployButtonModal final)
     = (if Nat.odd n then "Deployed" else "Deploy")
  /\ length lines = n
  /\ forall i, (i < n)%nat ->
       nth i lines ""
       = if Nat.even i then "Starting deployment..." else "Stopping deployment...".
Proof.
  assert (G : forall n b,
             snd (Deploy.clicks n b) = xorb b (Nat.odd n)
             /\ length (fst (Deploy.clicks n b)) = n
             /\ forall i, (i < n)%nat ->
                  nth i (fst (Deploy.clicks n b)) ""
                  = if xorb b (Nat.odd i)
                    then "Stopping deployment..." else "Starting deployment...").
  { clear n. induction n as [|n IH]; intros b.
    - cbn. split; [now destruct b|]. split; [reflexivity|]. intros i H. lia.
    - cbn [Deploy.clicks Deploy.handleDeploy].
      destruct (IH (negb b)) as (S1 & L1 & N1).
      destruct (Deploy.clicks n (negb b)) as [lines final]. cbn [fst snd] in *.
      split; [|split].
      + rewrite S1, Nat.odd_succ, <- Nat.negb_odd. now destruct b, (Nat.odd n).
      + cbn [length]. now rewrite L1.
      + intros [|i] H; [now destruct b|].
        cbn [nth]. rewrite N1 by lia.
        rewrite Nat.odd_succ, <- Nat.negb_odd. now destruct b, (Nat.odd i). }
  destruct (G n Deploy.initial) as (S1 & L1 & N1).
  destruct (Deploy.clicks n Deploy.initial) as [lines final]. cbn [fst snd] in *.
  subst final. cbn [Deploy.initial xorb] in *.
  split; [reflexivity|]. split; [now destruct (Nat.odd n)|]. split; [exact L1|].
  intros i H. rewrite N1 by exact H. rewrite <- Nat.negb_odd. now destruct (Nat.odd i).
Qed.

(** ** The further properties at sample inputs *)

Lemma success_run_shape_witness :
  let run := Sample.POST (init Sample.env) Sample.env
               (Sample.world None 0 (Sample.request false [])) in
  status (fst run) = 200
  /\ length (List.filter is_backend_call (snd run)) = 1%nat
  /\ length (List.filter is_increment (snd run)) = 1%nat.
Proof.
  intros run. split; [reflexivity|].
  destruct (success_run_shape [] [] length_compare Sample.TIERS unit Sample.JSON_stringify
              Sample.templateConfigs (init Sample.env) Sample.env
              (Sample.world None 0 (Sample.request false [])) eq_refl)
    as (B & I & _).
  split; [exact B | exact I].
Defined.

Lemma backend_rejection_no_increment_witness :
  let w := with_anthropicCreate (Sample.world None 0 (Sample.request false []))
             (Throw (ErrorObj "overloaded")) in
  List.filter is_increment (snd (Sample.POST (init Sample.env) Sample.env w)) = []
  /\ status (fst (Sample.POST (init Sample.env) Sample.env w)) <> 200.
Proof.
  intros w.
  apply (backend_rejection_no_increment [] [] length_compare Sample.TIERS unit
           Sample.JSON_stringify Sample.templateConfigs (init Sample.env) Sample.env w).
  - intros H. vm_compute in H. discriminate H.
  - intros _. exists (ErrorObj "overloaded"). reflexivity.
Defined.

Lemma unknown_tier_held_to_free_limit_witness :
  fst (Sample.POST (init Sample.env) Sample.env
         (Sample.world (Some "GOLD") 10 (Sample.request false [])))
  = text_response "AI generation limit reached for your GOLD tier" 429.
Proof.
  exact (unknown_tier_held_to_free_limit [] [] length_compare Sample.TIERS unit
           Sample.JSON_stringify Sample.templateConfigs (init Sample.env) Sample.env
           (Sample.world (Some "GOLD") 10 (Sample.request false []))
           {| id := "u1" |} {| ok := true |} {| ok := true |}
           {| tier := Some "GOLD"; userData_generations := Some 10 |}
           {| generations := Some 10; maxTokens := Some 1024;
              anthropicModel := Some "claude-3-5-sonnet" |}
           10 10 eq_refl eq_refl eq_refl eq_refl eq_refl eq_refl eq_refl eq_refl eq_refl
           ltac:(lia)).
Defined.

Lemma missing_tier_entry_500_witness :
  fst (POST [] [] length_compare ∅ unit Sample.JSON_stringify Sample.templateConfigs
         (init Sample.env) Sample.env
         (Sample.world (Some "PRO") 0 (Sample.request false [])))
  = text_response "Cannot read properties of undefined (reading 'generations')" 500.
Proof.
  exact (proj1
           (missing_tier_entry_500 [] [] length_compare ∅ unit Sample.JSON_stringify
              Sample.templateConfigs (init Sample.env) Sample.env
              (Sample.world (Some "PRO") 0 (Sample.request false []))
              {| id := "u1" |} {| ok := true |} {| ok := true |}
              {| tier := Some "PRO"; userData_generations := Some 0 |}
              eq_refl eq_refl eq_refl eq_refl eq_refl eq_refl eq_refl)).
Defined.

Lemma missing_count_passes_quota_check_witness :
  let w := with_dbUser_json (Sample.world None 0 (Sample.request false []))
             (Ok {| tier := Some "PRO"; userData_generations := None |}) in
  In RequestJson (snd (Sample.POST (init Sample.env) Sample.env w))
  /\ status (fst (Sample.POST (init Sample.env) Sample.env w)) <> 429.
Proof.
  intros w.
  exact (missing_count_passes_quota_check [] [] length_compare Sample.TIERS unit
           Sample.JSON_stringify Sample.templateConfigs (init Sample.env) Sample.env w
           {| id := "u1" |} {| ok := true |} {| ok := true |}
           {| tier := Some "PRO"; userData_generations := None |}
           {| generations := Some 500; maxTokens := Some 2048;
              anthropicModel := Some "claude-3-5-sonnet" |}
           eq_refl eq_refl eq_refl eq_refl eq_refl eq_refl).
Defined.

(** ** Prompt assembly, further *)

Lemma append_assoc (a b c : string) : (a ++ b) ++ c = a ++ b ++ c.
Proof. induction a as [|ch a IH]; [reflexivity|]. now rewrite !append_cons, IH. Qed.

Lemma includes_self (x : string) : includes x x.
Proof. exists "", "". now rewrite append_nil_l, append_nil_r. Qed.

Lemma includes_app_l (s t x : string) : includes s x -> includes (s ++ t) x.
Proof.
  intros (b & a & ->). exists b, (a ++ t). now rewrite !append_assoc.
Qed.

Lemma includes_app_r (s t x : string) : includes t x -> includes (s ++ t) x.
Proof.
  intros (b & a & ->). exists (s ++ b), a. now rewrite !append_assoc.
Qed.

Ltac find_included :=
  solve [ apply includes_self
        | apply includes_app_l; find_included
        | apply includes_app_r; find_included ].

Section PromptMore.

Variable ignoredFiles : list string.
Variable ignoredFolders : list string.
Variable localeCompare : string -> string -> Z.
Variable Json : Type.
Variable JSON_stringify : Json -> string.

Local Abbreviation template_context :=
  (templateContext ignoredFiles ignoredFolders localeCompare Json JSON_stringify).
Local Abbreviation fmt := (formatFileStructure ignoredFiles ignoredFolders localeCompare).

(** X20.  What the system message carries unchanged.  In edit mode: the
    template context, the file name, the line, the context or its
    placeholder, the active file content and the instruction.  In the other
    mode: the template context, the project name, and the context and the
    active file content when they are not empty.  The context of a resolved
    template carries the template's name, the listing of the files given
    with an empty prefix, and both stringified maps. *)
Theorem system_message_carries_inputs (ctx : string) (req : RequestBody)
        (instructions : string) (cfg : TemplateConfig Json) :
  (includes (edit_message ctx req instructions) ctx
   /\ includes (edit_message ctx req instructions) (Js.interp (fileName req))
   /\ includes (edit_message ctx req instructions) (Js.interp (line req))
   /\ includes (edit_message ctx req instructions)
               (Js.or (context req) "No additional context provided")
   /\ includes (edit_message ctx req instructions) (Js.interp (activeFileContent req))
   /\ includes (edit_message ctx req instructions) instructions)
  /\ (includes (chat_message ctx req) ctx
      /\ includes (chat_message ctx req) (Js.interp (projectName req))
      /\ (Js.truthy (context req) = true ->
          includes (chat_message ctx req) (Js.interp (context req)))
      /\ (Js.truthy (activeFileContent req) = true ->
          includes (chat_message ctx req) (Js.interp (activeFileContent req))))
  /\ (includes (template_context (Some cfg) (files req)) (name Json cfg)
      /\ includes (template_context (Some cfg) (files req)) (fmt (files req) "")
      /\ includes (template_context (Some cfg) (files req))
                  (JSON_stringify (dependencies Json cfg))
      /\ includes (template_context (Some cfg) (files req))
                  (JSON_stringify (scripts Json cfg))).
Proof.
  split; [|split].
  - unfold edit_message, Js.join. cbn [String.concat]. repeat split; find_included.
  - unfold chat_message, Js.join. cbn [String.concat].
    split; [find_included|]. split; [find_included|]. split.
    + intros ->. find_included.
    + intros ->. find_included.
  - unfold templateContext, Js.join. cbn [String.concat].
    split; [find_included|]. split; [|split; find_included].
    destruct (files req) as [fs|].
    + find_included.
    + simp formatFileStructure. find_included.
Qed.

End PromptMore.
